(** * YoutubeCommentSentiment.py: a shallow embedding and its properties

    The script fetches the top-level comments of a video, strips emoji,
    blanks out comments that are not English, scores the rest with
    TextBlob and prints a summary.  The embedding below follows
    [src/YoutubeCommentSentiment.py] function by function.  The four
    third-party services the script calls (the YouTube API, demoji,
    langdetect, TextBlob) are an interface, [Collaborators], that every
    definition is parametric in; pandas, whose behaviour decides several
    properties, is modelled in [Module pd]. *)

From Stdlib Require Import ZArith NArith QArith Qcanon String Ascii.
From stdpp Require Import base numbers option list gmap strings.

Local Open Scope nat_scope.

(** ** Python values *)

(** A Python [str] is a sequence of code points. *)
Abbreviation pystr := (list N) (only parsing).

(** A string literal of the source, as code points. *)
Definition str (s : string) : pystr :=
  N_of_ascii <$> list_ascii_of_string s.

(** The values the script stores in lists and data frame cells: [None],
    a [str], and the float [np.nan]. *)
Inductive pyval : Type :=
  | PyNone
  | PyStr (s : pystr)
  | PyNaN.

Global Instance pyval_eq_dec : EqDecision pyval.
Proof. solve_decision. Defined.

(** The exceptions that can travel through the script. *)
Inductive exn : Type :=
  | HttpError
  | LangDetectException
  | ValueError
  | TypeError
  | KeyError
  | SystemExit (msg : string).

Global Instance exn_eq_dec : EqDecision exn.
Proof. solve_decision. Defined.

(** How the body of a [def] ends when it does not raise: by a [return]
    statement, or by running off its last line, in which case the call
    evaluates to [None]. *)
Inductive completion : Type :=
  | Returned (v : pyval)
  | FellOffEnd.

Definition call_value (c : completion) : pyval :=
  match c with
  | Returned v => v
  | FellOffEnd => PyNone
  end.

(** ** [str] methods used by the script *)

(** [s.startswith(p)] *)
Fixpoint startswith (s p : pystr) {struct p} : bool :=
  match p, s with
  | [], _ => true
  | _ :: _, [] => false
  | c :: p', d :: s' => bool_decide (c = d) && startswith s' p'
  end.

(** [sub in s] *)
Fixpoint contains (s sub : pystr) : bool :=
  startswith s sub ||
  match s with
  | [] => false
  | _ :: s' => contains s' sub
  end.

(** The scan of [s.replace(old, new)] for a non-empty [old]: left to
    right, each occurrence found is replaced and the scan resumes after
    it, so occurrences never overlap.  [skip] counts the code points of
    the occurrence just matched that are still to be passed over. *)
Fixpoint replace_scan (old new : pystr) (skip : nat) (s : pystr) : pystr :=
  match s with
  | [] => []
  | c :: s' =>
      match skip with
      | S k => replace_scan old new k s'
      | O =>
          if startswith s old
          then new ++ replace_scan old new (length old - 1) s'
          else c :: replace_scan old new 0 s'
      end
  end.

(** [s.replace(old, new)].  An empty [old] matches between any two code
    points and at both ends. *)
Definition str_replace (s old new : pystr) : pystr :=
  match old with
  | [] => new ++ mbind (λ c, c :: new) s
  | _ :: _ => replace_scan old new 0 s
  end.

(** ** The world the script runs in *)

(** List objects are named by their address. *)
Abbreviation loc := positive (only parsing).

(** The random source langdetect draws from: its own generator seeded
    with [DetectorFactory.seed] when that is set, fresh entropy of the
    process otherwise. *)
Inductive rng : Type :=
  | Seeded (seed : Z)
  | Unseeded (entropy : N).

(** ** pandas *)

Module pd.

(** An axis label: the default integer labels, or a name. *)
Inductive label : Type :=
  | IntLabel (n : nat)
  | StrLabel (s : pystr).

Global Instance label_eq_dec : EqDecision label.
Proof. solve_decision. Defined.

Record Series : Type := mkSeries {
  s_index : list nat;
  s_values : list pyval
}.

(** A frame, column by column; every column has one cell per entry of
    [index]. *)
Record DataFrame : Type := mkDataFrame {
  index : list nat;
  columns : list (label * list pyval)
}.

(** [pd.DataFrame(data)] for a list of scalars: one column labelled
    [0] and the row labels [0 .. len(data) - 1]; for the empty list a
    frame with no row and no column. *)
Definition DataFrame_of_list (data : list pyval) : DataFrame :=
  match data with
  | [] => mkDataFrame [] []
  | _ :: _ => mkDataFrame (seq 0 (length data)) [(IntLabel 0, data)]
  end.

(** [df.columns = names]: pandas refuses a list whose length differs
    from the number of columns ("Length mismatch: Expected axis has
    ... elements, new values have ... elements"). *)
Definition set_columns (df : DataFrame) (names : list label)
    : exn + DataFrame :=
  if decide (length names = length (columns df))
  then inr (mkDataFrame (index df) (zip names (snd <$> columns df)))
  else inl ValueError.

Fixpoint lookup_column (name : label) (cols : list (label * list pyval))
    : option (list pyval) :=
  match cols with
  | [] => None
  | (n, vs) :: cols' =>
      if decide (n = name) then Some vs else lookup_column name cols'
  end.

(** [df[name]] *)
Definition getitem (df : DataFrame) (name : label) : exn + Series :=
  match lookup_column name (columns df) with
  | Some vs => inr (mkSeries (index df) vs)
  | None => inl KeyError
  end.

(** Missing values: [None] and [nan]. *)
Definition isna (v : pyval) : bool :=
  match v with
  | PyNone | PyNaN => true
  | PyStr _ => false
  end.

Definition notna (v : pyval) : bool := negb (isna v).

(** [s.isna().sum()] *)
Definition count_na (s : Series) : nat :=
  length (filter (λ v, isna v = true) (s_values s)).

Fixpoint update_column (name : label) (f : list pyval → list pyval)
    (cols : list (label * list pyval)) : list (label * list pyval) :=
  match cols with
  | [] => []
  | (n, vs) :: cols' =>
      if decide (n = name) then (n, f vs) :: cols'
      else (n, vs) :: update_column name f cols'
  end.

(** [df[name].replace(old, new, inplace = True)].  [df[name]] hands
    out the column the frame holds (pandas before copy-on-write, the
    behaviour the script was written for), so replacing in place
    changes the frame. *)
Definition replace_inplace (df : DataFrame) (name : label)
    (old new : pyval) : exn + DataFrame :=
  match lookup_column name (columns df) with
  | Some _ =>
      inr (mkDataFrame (index df)
             (update_column name
                (fmap (λ v, if decide (v = old) then new else v))
                (columns df)))
  | None => inl KeyError
  end.

(** Keeps the entries of [xs] whose mask bit is set. *)
Fixpoint select {A} (mask : list bool) (xs : list A) : list A :=
  match mask, xs with
  | b :: mask', x :: xs' =>
      if b then x :: select mask' xs' else select mask' xs'
  | _, _ => []
  end.

(** [df.dropna(subset = [name], inplace = True)]: the rows whose cell
    in column [name] is missing go, the others keep their labels and
    order. *)
Definition dropna (df : DataFrame) (name : label) : exn + DataFrame :=
  match lookup_column name (columns df) with
  | Some vs =>
      let mask := notna <$> vs in
      inr (mkDataFrame (select mask (index df))
             (prod_map id (select mask) <$> columns df))
  | None => inl KeyError
  end.

(** The cell of [s] labelled [i], [nan] when [s] has no such label. *)
Fixpoint at_label (i : nat) (idx : list nat) (vs : list pyval) : pyval :=
  match idx, vs with
  | j :: idx', v :: vs' =>
      if decide (j = i) then v else at_label i idx' vs'
  | _, _ => PyNaN
  end.

(** [df[name] = s]: the series is aligned on the row labels of the
    frame, then replaces the column [name] or is appended as a new
    last column. *)
Definition setitem (df : DataFrame) (name : label) (s : Series)
    : DataFrame :=
  let vs := (λ i, at_label i (s_index s) (s_values s)) <$> index df in
  match lookup_column name (columns df) with
  | Some _ => mkDataFrame (index df) (update_column name (λ _, vs) (columns df))
  | None => mkDataFrame (index df) (columns df ++ [(name, vs)])
  end.

(** Adds one observation of [v] to a table of counts that lists the
    values in the order they were first seen. *)
Fixpoint tally (v : pyval) (counts : list (pyval * nat))
    : list (pyval * nat) :=
  match counts with
  | [] => [(v, 1)]
  | (u, n) :: counts' =>
      if decide (u = v) then (u, S n) :: counts'
      else (u, n) :: tally v counts'
  end.

(** Stable insertion by decreasing count. *)
Fixpoint insert_desc (e : pyval * nat) (sorted : list (pyval * nat))
    : list (pyval * nat) :=
  match sorted with
  | [] => [e]
  | e' :: sorted' =>
      if decide (snd e' < snd e) then e :: sorted
      else e' :: insert_desc e sorted'
  end.

(** [s.value_counts()]: how often each value that is not missing
    occurs, most frequent first.  Only values that occur get an
    entry. *)
Definition value_counts (s : Series) : list (pyval * nat) :=
  foldr insert_desc []
    (foldl (λ counts v, tally v counts) []
       (filter (λ v, notna v = true) (s_values s))).

End pd.

(** What the script writes to the console. *)
Inductive output : Type :=
  | Print (line : string)
  | PrintFormatted (format : string) (arg : nat)
  | PrintCounts (counts : list (pyval * nat)).

(** The state a run can read and change: the list objects of the Python
    heap, the class attribute [DetectorFactory.seed], the entropy an
    unseeded detector would draw, the working directory, the console and
    the files written. *)
Record world : Type := mkWorld {
  heap : gmap loc (list pyval);
  factory_seed : option Z;
  entropy : N;
  cwd : pystr;
  stdout : list output;
  files : list (pystr * pd.DataFrame)
}.

(** ** Computations: state, exceptions, and fuel for the one loop whose
    bound is read from the heap *)

Inductive outcome (A : Type) : Type :=
  | Ok (a : A) (w : world)
  | Raise (e : exn) (w : world)
  | OutOfFuel.
Arguments Ok {A} a w.
Arguments Raise {A} e w.
Arguments OutOfFuel {A}.

Definition M (A : Type) : Type := world → outcome A.

Global Instance M_ret : MRet M := λ A a w, Ok a w.

Global Instance M_bind : MBind M := λ A B k m w,
  match m w with
  | Ok a w' => k a w'
  | Raise e w' => Raise e w'
  | OutOfFuel => OutOfFuel
  end.

Definition raise {A} (e : exn) : M A := λ w, Raise e w.

Definition out_of_fuel {A} : M A := λ _, OutOfFuel.

(** The value of a library call that either raises or returns. *)
Definition lift {A} (r : exn + A) : M A :=
  match r with
  | inl e => raise e
  | inr a => mret a
  end.

(** [try: body except E: handler], for the exceptions [catches] accepts. *)
Definition try_except {A} (body : M A) (catches : exn → bool)
    (handler : M A) : M A := λ w,
  match body w with
  | Raise e w' => if catches e then handler w' else Raise e w'
  | r => r
  end.

Definition print (o : output) : M () := λ w,
  Ok () (mkWorld (heap w) (factory_seed w) (entropy w) (cwd w)
           (stdout w ++ [o]) (files w)).

Definition write_file (path : pystr) (df : pd.DataFrame) : M () := λ w,
  Ok () (mkWorld (heap w) (factory_seed w) (entropy w) (cwd w)
           (stdout w) (files w ++ [(path, df)])).

Definition getcwd : M pystr := λ w, Ok (cwd w) w.

Definition set_heap (h : gmap loc (list pyval)) (w : world) : world :=
  mkWorld h (factory_seed w) (entropy w) (cwd w) (stdout w) (files w).

Definition set_seed (s : Z) (w : world) : world :=
  mkWorld (heap w) (Some s) (entropy w) (cwd w) (stdout w) (files w).

(** [DetectorFactory.seed = s] *)
Definition assign_seed (s : Z) : M () := λ w, Ok () (set_seed s w).

(** A list display [[...]]: a new list object. *)
Definition new_list (xs : list pyval) : M loc := λ w,
  let l := fresh (dom (heap w)) in
  Ok l (set_heap (<[l := xs]> (heap w)) w).

(** The current contents of a list object. *)
Definition read_list (l : loc) : M (list pyval) := λ w,
  match heap w !! l with
  | Some xs => Ok xs w
  | None => Raise TypeError w
  end.

(** Overwrites the contents of a list object. *)
Definition write_list (l : loc) (xs : list pyval) : M () := λ w,
  Ok () (set_heap (<[l := xs]> (heap w)) w).

(** [l.append(v)] *)
Definition list_append (l : loc) (v : pyval) : M () :=
  xs ← read_list l;
  write_list l (xs ++ [v]).

(** [l[i] = v]; Python raises [IndexError] out of range, which the
    callers below rule out by reading [l[i]] first. *)
Definition list_setitem (l : loc) (i : nat) (v : pyval) : M () :=
  xs ← read_list l;
  write_list l (<[i := v]> xs).

(** [for x in xs: body(x)] over a sequence that the body leaves alone. *)
Fixpoint for_each {A} (xs : list A) (body : A → M ()) : M () :=
  match xs with
  | [] => mret ()
  | x :: xs' => body x;; for_each xs' body
  end.

(** ** The collaborators *)

(** The pieces of a [commentThreads.list] response the script reads:
    [results["items"]], and in each item
    [item["snippet"]["topLevelComment"]["snippet"]["textDisplay"]]. *)
Record comment_snippet : Type := { textDisplay : pystr }.
Record comment_resource : Type := { comment_snippet_of : comment_snippet }.
Record thread_snippet : Type := { topLevelComment : comment_resource }.
Record thread : Type := { snippet : thread_snippet }.
Record response : Type := { items : list thread }.

(** The service object [build(...)] returns. *)
Record service : Type := {
  service_name : string;
  service_version : string;
  developerKey : string
}.

Class Collaborators : Type := {
  (** [youtube.commentThreads().list(part = "snippet", videoId = ...,
      textFormat = "plainText", maxResults = ...).execute()] *)
  commentThreads_list_execute : service → pystr → nat → exn + response;
  (** the keys of the dict [demoji.findall(text)], in the order the loop
      of [remove_emoji] visits them *)
  demoji_findall : pystr → list pystr;
  (** [langdetect.detect(text)], given the random source in force *)
  langdetect_detect : rng → pystr → exn + pystr;
  (** [TextBlob(text).sentiment.polarity] *)
  textblob_polarity : pystr → Qc
}.

(** ** The script *)

Definition DEVELOPER_KEY : string := "".
Definition YOUTUBE_API_SERVICE_NAME : string := "youtube".
Definition YOUTUBE_API_VERSION : string := "v3".
Definition results_cap : nat := 100.

Section Script.
Context {C : Collaborators}.

Definition get_youtube_comment_threads (youtube : service)
    (video_id : pystr) : M loc :=
  results ← lift (commentThreads_list_execute youtube video_id results_cap);
  comments_text ← new_list [];
  for_each (items results) (λ item,
    let comment := topLevelComment (snippet item) in
    let text := textDisplay (comment_snippet_of comment) in
    list_append comments_text (PyStr text));;
  mret comments_text.

Definition remove_emoji (text : pystr) : pystr :=
  let emoji_idxs := demoji_findall text in
  let demoji_text := text in
  foldl (λ demoji_text emoji, str_replace demoji_text emoji (str ""))
    demoji_text emoji_idxs.

(** [detect(text)] as langdetect runs it: the detector it creates
    takes its seed from [DetectorFactory.seed]. *)
Definition detect (text : pystr) : M (exn + pystr) := λ w,
  let source :=
    match factory_seed w with
    | Some s => Seeded s
    | None => Unseeded (entropy w)
    end in
  Ok (langdetect_detect source text) w.

Definition remove_non_english (text : pystr) : M pyval :=
  assign_seed 0;;
  detected ← detect text;
  mret (call_value
    match detected with
    | inr language =>
        if decide (language = str "en") then Returned (PyStr text)
        else FellOffEnd
    | inl _ => Returned (PyStr (str ""))
    end).

(** The loop of [clean_comments].  The list iterator reads
    [comments[index]] from the list object as it is at that moment and
    stops when [index] has reached its length. *)
Fixpoint clean_comments_loop (fuel : nat) (comments : loc) (index : nat)
    : M () :=
  match fuel with
  | O => out_of_fuel
  | S fuel' =>
      current ← read_list comments;
      match current !! index with
      | None => mret ()
      | Some comment =>
          match comment with
          | PyStr text =>
              list_setitem comments index (PyStr (remove_emoji text));;
              current ← read_list comments;
              match current !! index with
              | Some (PyStr text') =>
                  cleaned ← remove_non_english text';
                  list_setitem comments index cleaned;;
                  clean_comments_loop fuel' comments (S index)
              | _ => raise TypeError
              end
          | _ => raise TypeError
          end
      end
  end.

Definition clean_comments (fuel : nat) (comments : loc) : M loc :=
  clean_comments_loop fuel comments 0;;
  mret comments.

(** The [if] chain of [get_sentiment]: the value it assigns to the
    local variable [result]. *)
Definition get_sentiment_result (sentiment : Qc) : pystr :=
  if decide (0 < sentiment)%Qc then str "Positive"
  else if decide (sentiment < 0)%Qc then str "Negative"
  else str "Neutral".

(** The body of [get_sentiment]: [result] is assigned in every branch
    and the function ends there, without a [return]. *)
Definition get_sentiment_body (text : pystr) : completion :=
  let sentiment := textblob_polarity text in
  let result := get_sentiment_result sentiment in
  FellOffEnd.

(** [TextBlob(text)] raises [TypeError] unless [text] is a [str]. *)
Definition get_sentiment (text : pyval) : exn + pyval :=
  match text with
  | PyStr s => inr (call_value (get_sentiment_body s))
  | _ => inl TypeError
  end.

(** [s.apply(f)] *)
Fixpoint apply_values (f : pyval → exn + pyval) (vs : list pyval)
    : exn + list pyval :=
  match vs with
  | [] => inr []
  | v :: vs' =>
      match f v with
      | inl e => inl e
      | inr r =>
          match apply_values f vs' with
          | inl e => inl e
          | inr rs => inr (r :: rs)
          end
      end
  end.

Definition Series_apply (s : pd.Series) (f : pyval → exn + pyval)
    : exn + pd.Series :=
  match apply_values f (pd.s_values s) with
  | inl e => inl e
  | inr rs => inr (pd.mkSeries (pd.s_index s) rs)
  end.

Definition Comment : pd.label := pd.StrLabel (str "Comment").
Definition Sentiment : pd.label := pd.StrLabel (str "Sentiment").

(** The summary the script prints: [df['Sentiment'].value_counts()]. *)
Definition summarize (df : pd.DataFrame) : exn + list (pyval * nat) :=
  match pd.getitem df Sentiment with
  | inl e => inl e
  | inr column => inr (pd.value_counts column)
  end.

Definition build_sentiment_df (comments : loc) : M pd.DataFrame :=
  data ← read_list comments;
  let df := pd.DataFrame_of_list data in
  df ← lift (pd.set_columns df [Comment]);
  df ← lift (pd.replace_inplace df Comment (PyStr (str "")) PyNaN);
  column ← lift (pd.getitem df Comment);
  let count_nan := pd.count_na column in
  df ← lift (pd.dropna df Comment);
  column ← lift (pd.getitem df Comment);
  sentiment ← lift (Series_apply column get_sentiment);
  let df := pd.setitem df Sentiment sentiment in
  print (PrintFormatted
    "Summary of sentiment in all Comments 
(%d comments removed from analysis): "
    count_nan);;
  counts ← lift (summarize df);
  print (PrintCounts counts);;
  mret df.

(** The parsed command line. *)
Record Namespace : Type := {
  videoid : option pystr;
  csv : option pystr
}.

(** [build(YOUTUBE_API_SERVICE_NAME, YOUTUBE_API_VERSION,
    developerKey = DEVELOPER_KEY)] *)
Definition build (serviceName version key : string) : service :=
  {| service_name := serviceName; service_version := version;
     developerKey := key |}.

Definition main (fuel : nat) (args : Namespace) : M () :=
  match videoid args with
  | None | Some [] =>
      raise (SystemExit "Please specify videoid using the --videoid= parameter.")
  | Some video_id =>
      let youtube :=
        build YOUTUBE_API_SERVICE_NAME YOUTUBE_API_VERSION DEVELOPER_KEY in
      video_comments ← new_list [];
      video_comments ←
        try_except
          (fetched ← get_youtube_comment_threads youtube video_id;
           print (Print "Comments successfully accessed.");;
           mret fetched)
          (λ e, bool_decide (e = HttpError))
          (print (Print "An HTTP error occurred");;
           mret video_comments);
      cleaned_comments ← clean_comments fuel video_comments;
      result ← build_sentiment_df cleaned_comments;
      if decide (csv args = Some (str "y"))
      then
        directory ← getcwd;
        write_file
          (directory ++ str "\SentimentComments_" ++ video_id ++ str ".csv")
          result
      else mret ()
  end.

End Script.

(** ** A model of demoji's detector

    demoji compiles its table of emoji into one regular expression, the
    alternatives ordered longest first, and [findall] collects what
    [re.findall] matches: scanning left to right, the longest table
    entry that starts at the current position is taken and the scan
    resumes after it. *)

Definition longest_match (codes : list pystr) (s : pystr) : option pystr :=
  foldl
    (λ best e,
       if startswith s e && bool_decide (0 < length e)
            && bool_decide (from_option length 0 best < length e)
       then Some e else best)
    None codes.

Fixpoint findall_scan (codes : list pystr) (skip : nat) (s : pystr)
    : list pystr :=
  match s with
  | [] => []
  | _ :: s' =>
      match skip with
      | S k => findall_scan codes k s'
      | O =>
          match longest_match codes s with
          | Some e => e :: findall_scan codes (length e - 1) s'
          | None => findall_scan codes 0 s'
          end
      end
  end.

(** The distinct matches, in the order they are first met. *)
Definition table_findall (codes : list pystr) (text : pystr) : list pystr :=
  remove_dups (findall_scan codes 0 text).

(** ** Sample collaborators, for running the script on concrete input *)

Definition grinning_face : pystr := [0x1F600%N].
Definition regional_indicator_U : N := 0x1F1FA%N.
Definition regional_indicator_S : N := 0x1F1F8%N.
Definition flag_US : pystr := [regional_indicator_U; regional_indicator_S].

Definition sample_emoji : list pystr := [grinning_face; flag_US].

(** A response with the four comments "Great video! (grinning face)",
    "", "Bad content" and "Bonjour le monde". *)
Definition sample_thread (text : pystr) : thread :=
  {| snippet := {| topLevelComment :=
       {| comment_snippet_of := {| textDisplay := text |} |} |} |}.

Definition sample_comments : list pystr :=
  [str "Great video! " ++ grinning_face; str ""; str "Bad content";
   str "Bonjour le monde"].

Definition sample_execute (youtube : service) (video_id : pystr)
    (maxResults : nat) : exn + response :=
  if decide (video_id = str "unreachable") then inl HttpError
  else inr {| items := sample_thread <$> take maxResults sample_comments |}.

(** A detector that fails on the empty text, takes a text that starts
    with "Bonjour" for French and any other for English; without a seed
    its answer depends on the entropy it draws. *)
Definition sample_detect (source : rng) (text : pystr) : exn + pystr :=
  match text with
  | [] => inl LangDetectException
  | _ :: _ =>
      match source with
      | Unseeded entropy =>
          if N.even entropy then inr (str "en") else inr (str "fr")
      | Seeded _ =>
          if startswith text (str "Bonjour") then inr (str "fr")
          else inr (str "en")
      end
  end.

Definition sample_polarity (text : pystr) : Qc :=
  if contains text (str "Great") then Q2Qc (1 # 2)
  else if contains text (str "Bad") then Q2Qc (- 1 # 2)
  else Q2Qc 0.

Definition sample_collaborators : Collaborators := {|
  commentThreads_list_execute := sample_execute;
  demoji_findall := table_findall sample_emoji;
  langdetect_detect := sample_detect;
  textblob_polarity := sample_polarity
|}.

Definition empty_world : world := mkWorld ∅ None 0%N (str "C:") [] [].

(** A world whose one list object holds the sample comments. *)
Definition sample_world : world :=
  mkWorld {[ 1%positive := PyStr <$> sample_comments ]} None 7%N (str "C:") [] [].

(** A frame with the single row ("Great video!", "Positive"). *)
Definition one_positive_row : pd.DataFrame :=
  pd.mkDataFrame [0]
    [(Comment, [PyStr (str "Great video!")]);
     (Sentiment, [PyStr (str "Positive")])].

(** ** What an entry of the cleaned list means to [build_sentiment_df] *)

(** An entry is dropped when it is the empty string or a missing value. *)
Definition EMPTY (v : pyval) : bool :=
  bool_decide (v = PyStr (str "")) || pd.isna v.

(** The labels of the spec. *)
Definition Positive : pyval := PyStr (str "Positive").
Definition Negative : pyval := PyStr (str "Negative").
Definition Neutral : pyval := PyStr (str "Neutral").

(** ** The cleaned form of a comment *)

(** The value a call [remove_non_english(text)] evaluates to. *)
Definition language_filtered `{Collaborators} (text : pystr) : pyval :=
  call_value
    match langdetect_detect (Seeded 0) text with
    | inr language =>
        if decide (language = str "en") then Returned (PyStr text)
        else FellOffEnd
    | inl _ => Returned (PyStr (str ""))
    end.

(** Sanitized, then language-filtered. *)
Definition cleaned `{Collaborators} (raw : pystr) : pyval :=
  language_filtered (remove_emoji raw).

(** [replace('', nan)] on one cell. *)
Definition blank_to_nan (v : pyval) : pyval :=
  if decide (v = PyStr (str "")) then PyNaN else v.

(** How often [v] occurs in [vs]. *)
Definition occurrences (v : pyval) (vs : list pyval) : nat :=
  length (filter (λ u, u = v) vs).

(** The table of counts after the values [seen]: one entry per value
    that occurs, holding how often it occurs. *)
Definition counts_of (counts : list (pyval * nat)) (seen : list pyval) : Prop :=
  NoDup counts.*1
  ∧ ∀ v n, (v, n) ∈ counts ↔ 0 < n ∧ n = occurrences v seen.

(** ** More sample data *)

Definition red_heart : pystr := [0x2764%N].

(** Two detectors over the same table that hand out the emoji they find
    in opposite orders, as two runs of a hash-ordered dict may. *)
Definition heart_collaborators : Collaborators := {|
  commentThreads_list_execute := sample_execute;
  demoji_findall := table_findall [grinning_face; red_heart];
  langdetect_detect := sample_detect;
  textblob_polarity := sample_polarity
|}.

Definition reversed_heart_collaborators : Collaborators := {|
  commentThreads_list_execute := sample_execute;
  demoji_findall := λ text, reverse (table_findall [grinning_face; red_heart] text);
  langdetect_detect := sample_detect;
  textblob_polarity := sample_polarity
|}.

(** A service whose videos have no comments, and which fails with an
    exception other than [HttpError] on the video "private". *)
Definition quiet_execute (youtube : service) (video_id : pystr)
    (maxResults : nat) : exn + response :=
  if decide (video_id = str "private") then inl KeyError
  else inr {| items := [] |}.

Definition quiet_collaborators : Collaborators := {|
  commentThreads_list_execute := quiet_execute;
  demoji_findall := table_findall sample_emoji;
  langdetect_detect := sample_detect;
  textblob_polarity := sample_polarity
|}.


(** [isinstance(v, str)] *)
Definition is_str (v : pyval) : bool :=
  match v with
  | PyStr _ => true
  | _ => false
  end.

(** The text of a comment thread, as [get_youtube_comment_threads] reads
    it out of an item. *)
Definition comment_text (item : thread) : pystr :=
  textDisplay (comment_snippet_of (topLevelComment (snippet item))).



(** * Properties *)

Section SentimentClassifier.
Context {C : Collaborators}.

(** The local variable [result] holds the label the sign of the score
    calls for. *)
Lemma get_sentiment_result_sign (sentiment : Qc) :
  ((0 < sentiment)%Qc → get_sentiment_result sentiment = str "Positive")
  ∧ ((sentiment < 0)%Qc → get_sentiment_result sentiment = str "Negative")
  ∧ (sentiment = 0%Qc → get_sentiment_result sentiment = str "Neutral").
Proof.
  unfold get_sentiment_result. repeat split.
  - intros Hpos. by rewrite decide_True.
  - intros Hneg.
    rewrite decide_False by (by apply Qcle_not_lt, Qclt_le_weak).
    by rewrite decide_True.
  - intros ->.
    by rewrite !decide_False by (intros Hlt; by apply Qclt_not_eq in Hlt).
Qed.

(** That label is lost: however the text scores, the body ends without
    returning. *)
Lemma get_sentiment_body_falls_off (text : pystr) :
  get_sentiment_body text = FellOffEnd.
Proof. reflexivity. Qed.

(** A call on a string never raises and evaluates to [None]. *)
Lemma get_sentiment_of_str (text : pystr) :
  get_sentiment (PyStr text) = inr PyNone.
Proof. unfold get_sentiment. by rewrite get_sentiment_body_falls_off. Qed.

(** C1, as the code has it: for every text, whatever its polarity,
    [get_sentiment] evaluates to [None], which is none of the three
    labels the claim promises. *)
Theorem get_sentiment_returns_None (text : pystr) :
  get_sentiment (PyStr text) = inr PyNone
  ∧ PyNone ≠ Positive ∧ PyNone ≠ Negative ∧ PyNone ≠ Neutral.
Proof.
  split; [apply get_sentiment_of_str|].
  repeat split; discriminate.
Qed.

End SentimentClassifier.

Section LanguageFilter.
Context {C : Collaborators}.

(** What one call does, whatever the world it starts in: the seed is
    overwritten, langdetect is consulted with that seed, and the answer
    decides how the body ends. *)
Lemma remove_non_english_run (text : pystr) (w : world) :
  remove_non_english text w =
  Ok (call_value
        match langdetect_detect (Seeded 0) text with
        | inr language =>
            if decide (language = str "en") then Returned (PyStr text)
            else FellOffEnd
        | inl _ => Returned (PyStr (str ""))
        end)
     (set_seed 0 w).
Proof. reflexivity. Qed.

(** A text detected as English comes back unchanged. *)
Lemma remove_non_english_english (text : pystr) (w : world) :
  langdetect_detect (Seeded 0) text = inr (str "en") →
  remove_non_english text w = Ok (PyStr text) (set_seed 0 w).
Proof.
  intros Hen. rewrite remove_non_english_run, Hen.
  by rewrite decide_True.
Qed.

(** C4, as the code has it: when the detector names a language other
    than "en", no [return] is reached inside the [try] and the call
    evaluates to [None], not to the empty string. *)
Theorem remove_non_english_other_language
    (text language : pystr) (w : world) :
  langdetect_detect (Seeded 0) text = inr language →
  language ≠ str "en" →
  remove_non_english text w = Ok PyNone (set_seed 0 w)
  ∧ PyNone ≠ PyStr (str "").
Proof.
  intros Hdet Hne. split; [|discriminate].
  rewrite remove_non_english_run, Hdet.
  by rewrite decide_False.
Qed.

(** C8: when detection raises, whatever the exception, the bare
    [except] returns the empty string and nothing is raised to the
    caller. *)
Theorem remove_non_english_detection_fails
    (text : pystr) (e : exn) (w : world) :
  langdetect_detect (Seeded 0) text = inl e →
  remove_non_english text w = Ok (PyStr (str "")) (set_seed 0 w).
Proof.
  intros Hdet. by rewrite remove_non_english_run, Hdet.
Qed.

(** [remove_non_english] never raises and never runs out of fuel. *)
Lemma remove_non_english_total (text : pystr) (w : world) :
  ∃ v, remove_non_english text w = Ok v (set_seed 0 w).
Proof. eexists. apply remove_non_english_run. Qed.

(** C9: two calls on the same text return the same value, whatever
    seed and entropy each of them finds on entry, because the seed is
    set to 0 before the detector runs. *)
Theorem remove_non_english_deterministic (text : pystr) (w1 w2 : world) :
  ∃ v, remove_non_english text w1 = Ok v (set_seed 0 w1)
     ∧ remove_non_english text w2 = Ok v (set_seed 0 w2)
     ∧ factory_seed (set_seed 0 w1) = Some 0%Z
     ∧ factory_seed (set_seed 0 w2) = Some 0%Z.
Proof.
  eexists. rewrite !remove_non_english_run. by repeat split.
Qed.

End LanguageFilter.

(** The English half of C4 on the sample detector. *)
Example remove_non_english_keeps_english :
  @remove_non_english sample_collaborators (str "Bad content") sample_world
  = Ok (PyStr (str "Bad content")) (set_seed 0 sample_world).
Proof. reflexivity. Qed.

Lemma remove_non_english_other_language_witness :
  @remove_non_english sample_collaborators (str "Bonjour le monde") sample_world
  = Ok PyNone (set_seed 0 sample_world)
  ∧ PyNone ≠ PyStr (str "").
Proof.
  apply (@remove_non_english_other_language sample_collaborators
           (str "Bonjour le monde") (str "fr") sample_world).
  - reflexivity.
  - discriminate.
Defined.

Lemma remove_non_english_detection_fails_witness :
  @remove_non_english sample_collaborators (str "") sample_world
  = Ok (PyStr (str "")) (set_seed 0 sample_world).
Proof.
  apply (@remove_non_english_detection_fails sample_collaborators
           (str "") LangDetectException sample_world).
  reflexivity.
Defined.

(** Without the assignment to the seed the same text can be classified
    differently in two worlds: the detector alone is not deterministic. *)
Example detect_alone_varies :
  ∃ v1 v2 w1 w2,
    @detect sample_collaborators (str "Bad content")
      (mkWorld ∅ None 0%N [] [] []) = Ok v1 w1
    ∧ @detect sample_collaborators (str "Bad content")
        (mkWorld ∅ None 1%N [] [] []) = Ok v2 w2
    ∧ v1 ≠ v2.
Proof. do 4 eexists. repeat split; [reflexivity..|discriminate]. Qed.

(** ** [str.replace] when the pattern is one code point *)

Lemma startswith_singleton (s : pystr) (c : N) :
  startswith s [c] = match s with [] => false | d :: _ => bool_decide (c = d) end.
Proof. destruct s as [|d s]; simpl; [done|]. by rewrite andb_true_r. Qed.

(** Replacing a single code point by nothing filters it out. *)
Lemma str_replace_singleton (s : pystr) (c : N) :
  str_replace s [c] (str "") = filter (λ d, d ≠ c) s.
Proof.
  unfold str_replace. change (str "") with (@nil N).
  induction s as [|d s IH]; [done|].
  cbn [replace_scan]. rewrite startswith_singleton.
  cbn [length Nat.sub app]. rewrite filter_cons.
  case_bool_decide as Hcd; subst.
  - rewrite decide_False by naive_solver. exact IH.
  - rewrite decide_True by naive_solver. by rewrite IH.
Qed.

Lemma contains_singleton (s : pystr) (c : N) :
  contains s [c] = false ↔ c ∉ s.
Proof.
  induction s as [|d s IH]; simpl.
  - split; [intros _; apply not_elem_of_nil | done].
  - rewrite andb_true_r, orb_false_iff, IH, not_elem_of_cons.
    rewrite bool_decide_eq_false. done.
Qed.

(** [sub in s] holds exactly when [sub] starts at some position of [s]. *)
Lemma contains_true_iff (s sub : pystr) :
  contains s sub = true ↔ ∃ before after, s = before ++ sub ++ after.
Proof.
  assert (Hstart : ∀ s sub, startswith s sub = true ↔ ∃ after, s = sub ++ after).
  { clear. intros s sub. revert s.
    induction sub as [|c sub IH]; intros s; simpl.
    - split; [eauto | by destruct s].
    - destruct s as [|d s]; simpl.
      + split; [done | by intros [? ?]].
      + rewrite andb_true_iff, bool_decide_eq_true, IH. split.
        * intros [-> [after ->]]. eauto.
        * intros [after [= -> ->]]. eauto. }
  induction s as [|d s IH]; simpl.
  - rewrite orb_false_r, Hstart. split.
    + intros [after Heq]. by exists [], after.
    + intros (before & after & Heq). symmetry in Heq.
      apply app_eq_nil in Heq as [-> Heq]. eauto.
  - rewrite orb_true_iff, Hstart, IH. split.
    + intros [[after Heq] | (before & after & ->)].
      * by exists [], after.
      * by exists (d :: before), after.
    + intros (before & after & Heq). destruct before as [|b before].
      * left. eauto.
      * right. injection Heq as -> ->. eauto.
Qed.

Section TextSanitizer.
Context {C : Collaborators}.

(** A text in which the detector finds nothing is returned as it is. *)
Lemma remove_emoji_without_emoji (text : pystr) :
  demoji_findall text = [] → remove_emoji text = text.
Proof. unfold remove_emoji. by intros ->. Qed.

(** Removing detected emoji that are single code points, one after the
    other, deletes exactly those code points. *)
Lemma remove_single_code_points (keys : list pystr) (text : pystr) :
  (∀ e, e ∈ keys → length e = 1) →
  foldl (λ demoji_text emoji, str_replace demoji_text emoji (str "")) text keys
  = filter (λ c, [c] ∉ keys) text.
Proof.
  revert text. induction keys as [|k keys IH]; intros text Hone; simpl.
  - induction text as [|c text IHt]; [done|].
    rewrite filter_cons_True by apply not_elem_of_nil. by rewrite <- IHt.
  - destruct k as [|c [|? ?]];
      try (specialize (Hone _ (list_elem_of_here _ _)); simpl in Hone; lia).
    rewrite str_replace_singleton.
    rewrite IH by (intros e He; apply Hone; by right).
    rewrite list_filter_filter. apply list_filter_iff.
    intros d. rewrite not_elem_of_cons. naive_solver.
Qed.

(** C7, amended: when every emoji the detector finds in the text is a
    single code point, [remove_emoji] deletes exactly the occurrences of
    those code points, all of them, and none of the detected emoji
    occurs in the result. *)
Theorem remove_emoji_single_code_point_emoji (text : pystr) :
  (∀ e, e ∈ demoji_findall text → length e = 1) →
  remove_emoji text = filter (λ c, [c] ∉ demoji_findall text) text
  ∧ ∀ e, e ∈ demoji_findall text → contains (remove_emoji text) e = false.
Proof.
  intros Hone.
  assert (Heq : remove_emoji text = filter (λ c, [c] ∉ demoji_findall text) text)
    by (by apply remove_single_code_points).
  split; [done|].
  intros e He. pose proof (Hone e He) as Hlen.
  destruct e as [|c [|? ?]]; simpl in Hlen; try lia.
  apply contains_singleton. rewrite Heq.
  rewrite list_elem_of_filter. naive_solver.
Qed.

End TextSanitizer.

Lemma remove_emoji_single_code_point_emoji_witness :
  @remove_emoji sample_collaborators (str "Great video! " ++ grinning_face)
  = str "Great video! "
  ∧ contains (@remove_emoji sample_collaborators
                (str "Great video! " ++ grinning_face)) grinning_face = false.
Proof.
  destruct (@remove_emoji_single_code_point_emoji sample_collaborators
              (str "Great video! " ++ grinning_face)) as [Heq Hnone].
  - intros e He. vm_compute in He.
    apply list_elem_of_singleton in He. by subst.
  - split.
    + rewrite Heq. reflexivity.
    + apply Hnone. vm_compute. apply list_elem_of_here.
Defined.

(** C7 as stated fails: between the two regional indicators of the text
    below the detector finds one emoji, the grinning face; with it gone
    the indicators meet and form a flag, which the detector recognizes
    in the result. *)
Lemma remove_emoji_can_leave_an_emoji :
  ¬ (∀ (C : Collaborators) (text : pystr),
       @demoji_findall C (@remove_emoji C text) = []
       ∧ ∀ e, e ∈ @demoji_findall C text →
              contains (@remove_emoji C text) e = false).
Proof.
  intros Hclaim.
  destruct (Hclaim sample_collaborators
              ([regional_indicator_U] ++ grinning_face ++ [regional_indicator_S]))
    as [Hnone _].
  vm_compute in Hnone. discriminate.
Qed.

(** The detected emoji itself can survive: removing the flag in the
    middle of the text below joins its neighbours into the same flag. *)
Example remove_emoji_can_leave_the_detected_emoji :
  let text := [regional_indicator_U] ++ flag_US ++ [regional_indicator_S] in
  @demoji_findall sample_collaborators text = [flag_US]
  ∧ @remove_emoji sample_collaborators text = flag_US
  ∧ contains (@remove_emoji sample_collaborators text) flag_US = true.
Proof. by vm_compute. Qed.

(** ** Running computations step by step *)

Lemma bind_Ok {A B} (m : M A) (k : A → M B) (w w' : world) (a : A) :
  m w = Ok a w' → (m ≫= k) w = k a w'.
Proof. unfold mbind, M_bind. by intros ->. Qed.

Lemma bind_Raise {A B} (m : M A) (k : A → M B) (w w' : world) (e : exn) :
  m w = Raise e w' → (m ≫= k) w = Raise e w'.
Proof. unfold mbind, M_bind. by intros ->. Qed.

Lemma read_list_run (l : loc) (xs : list pyval) (w : world) :
  heap w !! l = Some xs → read_list l w = Ok xs w.
Proof. unfold read_list. by intros ->. Qed.

Lemma list_setitem_run (l : loc) (i : nat) (v : pyval) (xs : list pyval)
    (w : world) :
  heap w !! l = Some xs →
  list_setitem l i v w = Ok () (set_heap (<[l := <[i := v]> xs]> (heap w)) w).
Proof.
  intros Hl. unfold list_setitem.
  by rewrite (bind_Ok _ _ _ _ _ (read_list_run _ _ _ Hl)).
Qed.

Section CommentPipeline.
Context {C : Collaborators}.

Lemma remove_non_english_filtered (text : pystr) (w : world) :
  remove_non_english text w = Ok (language_filtered text) (set_seed 0 w).
Proof. reflexivity. Qed.

Lemma clean_comments_loop_spec (comments : loc) (rest : list pystr) :
  ∀ (fuel index : nat) (w : world) (done : list pyval),
    heap w !! comments = Some (done ++ (PyStr <$> rest)) →
    length done = index →
    length rest < fuel →
    ∃ w',
      clean_comments_loop fuel comments index w = Ok () w'
      ∧ heap w' = <[comments := done ++ (cleaned <$> rest)]> (heap w)
      ∧ stdout w' = stdout w ∧ files w' = files w
      ∧ entropy w' = entropy w ∧ cwd w' = cwd w.
Proof.
  induction rest as [|raw rest IH]; intros fuel index w done Hheap Hlen Hfuel;
    (destruct fuel as [|fuel]; [simpl in Hfuel; lia|]);
    cbn [clean_comments_loop];
    rewrite (bind_Ok _ _ _ _ _ (read_list_run _ _ _ Hheap)).
  - exists w.
    rewrite lookup_ge_None_2 by (rewrite length_app; simpl; lia).
    rewrite (insert_id _ _ _ Hheap). done.
  - subst index. rewrite fmap_cons, list_lookup_middle by done.
    rewrite (bind_Ok _ _ _ _ _ (list_setitem_run _ _ _ _ _ Hheap)).
    set (w1 := set_heap _ w).
    assert (Hheap1 : heap w1 !! comments
              = Some (done ++ PyStr (remove_emoji raw) :: (PyStr <$> rest))).
    { subst w1. simpl. rewrite lookup_insert_eq. f_equal.
      by rewrite insert_app_r_alt, Nat.sub_diag by lia. }
    rewrite (bind_Ok _ _ _ _ _ (read_list_run _ _ _ Hheap1)).
    rewrite list_lookup_middle by done.
    rewrite (bind_Ok _ _ _ _ _ (remove_non_english_filtered _ _)).
    assert (Hheap1' : heap (set_seed 0 w1) !! comments
              = Some (done ++ PyStr (remove_emoji raw) :: (PyStr <$> rest)))
      by exact Hheap1.
    rewrite (bind_Ok _ _ _ _ _ (list_setitem_run _ _ _ _ _ Hheap1')).
    set (w2 := set_heap _ (set_seed 0 w1)).
    destruct (IH fuel (S (length done)) w2 (done ++ [cleaned raw]))
      as (w' & Hrun & Hheap' & Hout & Hfiles & Hent & Hcwd).
    + subst w2. simpl. rewrite lookup_insert_eq. f_equal.
      rewrite insert_app_r_alt, Nat.sub_diag by lia. simpl.
      by rewrite <- app_assoc.
    + rewrite length_app. simpl. lia.
    + simpl in Hfuel. lia.
    + exists w'. split; [exact Hrun|].
      rewrite Hheap', Hout, Hfiles, Hent, Hcwd. subst w2 w1. simpl.
      rewrite !insert_insert_eq, <- app_assoc. done.
Qed.

(** A run of [clean_comments] on a list object that holds strings. *)
Lemma clean_comments_spec (comments : loc) (xs : list pystr) (fuel : nat)
    (w : world) :
  heap w !! comments = Some (PyStr <$> xs) →
  length xs < fuel →
  ∃ w',
    clean_comments fuel comments w = Ok comments w'
    ∧ heap w' = <[comments := cleaned <$> xs]> (heap w)
    ∧ stdout w' = stdout w ∧ files w' = files w
    ∧ entropy w' = entropy w ∧ cwd w' = cwd w.
Proof.
  intros Hheap Hfuel.
  destruct (clean_comments_loop_spec comments xs fuel 0 w [] Hheap eq_refl Hfuel)
    as (w' & Hrun & Hrest).
  exists w'. split; [|exact Hrest].
  unfold clean_comments. by rewrite (bind_Ok _ _ _ _ _ Hrun).
Qed.

(** C6: on a list of comment strings [clean_comments] yields a list of
    the same length whose entry at each index is what
    [remove_non_english] returns for the [remove_emoji] form of the
    input entry at that index. *)
Theorem clean_comments_positional (comments : loc) (xs : list pystr)
    (fuel : nat) (w : world) :
  heap w !! comments = Some (PyStr <$> xs) →
  length xs < fuel →
  ∃ w' out,
    clean_comments fuel comments w = Ok comments w'
    ∧ heap w' !! comments = Some out
    ∧ length out = length xs
    ∧ ∀ i raw, xs !! i = Some raw →
        ∃ v, out !! i = Some v
           ∧ ∀ w0, remove_non_english (remove_emoji raw) w0
                   = Ok v (set_seed 0 w0).
Proof.
  intros Hheap Hfuel.
  destruct (clean_comments_spec comments xs fuel w Hheap Hfuel)
    as (w' & Hrun & Hheap' & _).
  exists w', (cleaned <$> xs). split; [exact Hrun|].
  split; [by rewrite Hheap', lookup_insert_eq|].
  split; [by rewrite length_fmap|].
  intros i raw Hi. exists (cleaned raw). split.
  - by rewrite list_lookup_fmap, Hi.
  - intros w0. apply remove_non_english_filtered.
Qed.

(** C10: [clean_comments] returns the list object it was given; that
    object now holds the cleaned forms, no other object is touched and
    none is created, so the raw comments are held nowhere any more. *)
Theorem clean_comments_in_place (comments : loc) (xs : list pystr)
    (fuel : nat) (w : world) :
  heap w !! comments = Some (PyStr <$> xs) →
  length xs < fuel →
  ∃ w' out,
    clean_comments fuel comments w = Ok comments w'
    ∧ heap w' = <[comments := out]> (heap w)
    ∧ Forall2 (λ raw v, ∀ w0, remove_non_english (remove_emoji raw) w0
                              = Ok v (set_seed 0 w0)) xs out
    ∧ (∀ l, l ≠ comments → heap w' !! l = heap w !! l)
    ∧ dom (heap w') = dom (heap w).
Proof.
  intros Hheap Hfuel.
  destruct (clean_comments_spec comments xs fuel w Hheap Hfuel)
    as (w' & Hrun & Hheap' & _).
  exists w', (cleaned <$> xs). split; [exact Hrun|].
  split; [exact Hheap'|]. split; [|split].
  - apply Forall2_fmap_r, Forall_Forall2_diag, Forall_forall.
    intros raw _ w0. apply remove_non_english_filtered.
  - intros l Hl. by rewrite Hheap', lookup_insert_ne.
  - rewrite Hheap', dom_insert_L.
    assert (comments ∈ dom (heap w)) by (apply elem_of_dom; eauto).
    set_solver.
Qed.

End CommentPipeline.

Lemma clean_comments_positional_witness :
  ∃ w' out,
    @clean_comments sample_collaborators 5 1%positive sample_world
    = Ok 1%positive w'
    ∧ heap w' !! 1%positive = Some out
    ∧ length out = length sample_comments
    ∧ ∀ i raw, sample_comments !! i = Some raw →
        ∃ v, out !! i = Some v
           ∧ ∀ w0, @remove_non_english sample_collaborators
                     (@remove_emoji sample_collaborators raw) w0
                   = Ok v (set_seed 0 w0).
Proof.
  apply (@clean_comments_positional sample_collaborators 1%positive
           sample_comments 5 sample_world).
  - by vm_compute.
  - simpl. lia.
Defined.

Lemma clean_comments_in_place_witness :
  ∃ w' out,
    @clean_comments sample_collaborators 5 1%positive sample_world
    = Ok 1%positive w'
    ∧ heap w' = <[1%positive := out]> (heap sample_world)
    ∧ Forall2 (λ raw v, ∀ w0, @remove_non_english sample_collaborators
                                (@remove_emoji sample_collaborators raw) w0
                              = Ok v (set_seed 0 w0)) sample_comments out
    ∧ (∀ l, l ≠ 1%positive → heap w' !! l = heap sample_world !! l)
    ∧ dom (heap w') = dom (heap sample_world).
Proof.
  apply (@clean_comments_in_place sample_collaborators 1%positive
           sample_comments 5 sample_world).
  - by vm_compute.
  - simpl. lia.
Defined.

(** The sample comments, cleaned: the emoji is gone from the first, the
    empty one made the detector fail, the French one fell through. *)
Example clean_comments_sample :
  match @clean_comments sample_collaborators 5 1%positive sample_world with
  | Ok cleaned_comments w' => heap w' !! cleaned_comments
  | _ => None
  end
  = Some [PyStr (str "Great video! "); PyStr (str "");
          PyStr (str "Bad content"); PyNone].
Proof. by vm_compute. Qed.

(** With too little fuel the model of the loop gives up; the theorems
    above show that any amount above the length of the list is enough. *)
Example clean_comments_needs_fuel :
  @clean_comments sample_collaborators 4 1%positive sample_world = OutOfFuel.
Proof. by vm_compute. Qed.

(** ** Facts about the pandas model *)

Lemma select_fmap {A B} (p : A → bool) (g : A → B) (l : list A) :
  pd.select (p <$> l) (g <$> l) = g <$> filter (λ v, p v) l.
Proof.
  induction l as [|x l IH]; [done|].
  rewrite filter_cons, !fmap_cons. simpl.
  destruct (p x) eqn:Hp; simpl; [f_equal|]; exact IH.
Qed.

Lemma select_sublist {A} (mask : list bool) (l : list A) :
  pd.select mask l `sublist_of` l.
Proof.
  revert l. induction mask as [|b mask IH]; intros [|x l]; simpl;
    try apply sublist_nil_l.
  destruct b; [apply sublist_skip | apply sublist_cons]; apply IH.
Qed.

Lemma select_length {A B} (mask : list bool) (l : list A) (k : list B) :
  length l = length k →
  length (pd.select mask l) = length (pd.select mask k).
Proof.
  revert l k. induction mask as [|b mask IH]; intros [|x l] [|y k] Hlen;
    simpl in *; try done.
  destruct b; simpl; auto.
Qed.

(** Aligning a series on its own labels changes nothing. *)
Lemma at_label_own_index (idx : list nat) (vs : list pyval) :
  NoDup idx → length idx = length vs →
  (λ i, pd.at_label i idx vs) <$> idx = vs.
Proof.
  revert vs. induction idx as [|j idx IH]; intros [|v vs] Hnd Hlen;
    simpl in *; try done.
  apply NoDup_cons in Hnd as [Hj Hnd].
  rewrite decide_True by done. f_equal.
  etrans; [|apply (IH vs); [done | lia]].
  apply list_fmap_ext. intros k i Hi.
  rewrite decide_False; [done|].
  intros ->. apply Hj. by eapply list_elem_of_lookup_2.
Qed.

Lemma filter_notna_replicate_None (n : nat) :
  filter (λ v, pd.notna v = true) (replicate n PyNone) = [].
Proof. induction n as [|n IH]; [done|]. simpl. by rewrite filter_cons_False. Qed.


Lemma bind_lift {A B} (r : exn + A) (k : A → M B) (a : A) (w : world) :
  r = inr a → (lift r ≫= k) w = k a w.
Proof. by intros ->. Qed.

Lemma bind_lift_raise {A B} (r : exn + A) (k : A → M B) (e : exn) (w : world) :
  r = inl e → (lift r ≫= k) w = Raise e w.
Proof. by intros ->. Qed.

Lemma filter_fmap_length {A B} (P : B → Prop) `{!∀ y, Decision (P y)}
    (g : A → B) (l : list A) :
  length (filter P (g <$> l)) = length (filter (λ x, P (g x)) l).
Proof.
  induction l as [|x l IH]; [done|].
  rewrite fmap_cons, !filter_cons. destruct (decide (P (g x))); simpl; lia.
Qed.

Lemma bind_print {B} (o : output) (k : () → M B) (w : world) :
  (print o ≫= k) w
  = k () (mkWorld (heap w) (factory_seed w) (entropy w) (cwd w)
            (stdout w ++ [o]) (files w)).
Proof. reflexivity. Qed.

Section Analysis.
Context {C : Collaborators}.

(** Every string is scored without an error, and scored to [None]. *)
Lemma apply_get_sentiment (texts : list pyval) :
  Forall (λ v, ∃ s, v = PyStr s) texts →
  apply_values get_sentiment texts = inr (replicate (length texts) PyNone).
Proof.
  induction 1 as [|v texts [s ->] _ IH]; [done|].
  cbn [apply_values]. rewrite IH.
  by rewrite get_sentiment_of_str.
Qed.

Lemma EMPTY_blank_to_nan (v : pyval) : pd.isna (blank_to_nan v) = EMPTY v.
Proof.
  unfold blank_to_nan, EMPTY. case_decide as Hv.
  - subst. reflexivity.
  - by rewrite bool_decide_eq_false_2.
Qed.

Lemma not_EMPTY_is_str (v : pyval) : ¬ EMPTY v → ∃ s, v = PyStr s.
Proof. destruct v; [by intros [] | eauto | by intros []]. Qed.

Lemma not_EMPTY_blank_to_nan (v : pyval) : ¬ EMPTY v → blank_to_nan v = v.
Proof.
  unfold blank_to_nan, EMPTY. intros Hv. case_decide as Heq; [|done].
  subst. by destruct Hv.
Qed.

(** The rows that survive [dropna] are the entries that are not
    [EMPTY], in the order of the list. *)
Lemma surviving_texts (data : list pyval) :
  pd.select (pd.notna <$> (blank_to_nan <$> data)) (blank_to_nan <$> data)
  = filter (λ v, ¬ EMPTY v) data.
Proof.
  rewrite <- list_fmap_compose, select_fmap.
  rewrite (list_filter_iff _ (λ v, ¬ EMPTY v)).
  - etrans; [|apply list_fmap_id].
    apply Forall_fmap_ext, Forall_forall.
    intros v [Hv _]%list_elem_of_filter. by apply not_EMPTY_blank_to_nan.
  - intros v. simpl. unfold pd.notna. rewrite EMPTY_blank_to_nan.
    apply negb_True.
Qed.

Lemma build_sentiment_df_spec (comments : loc) (data : list pyval) (w : world) :
  heap w !! comments = Some data →
  data ≠ [] →
  let texts := filter (λ v, ¬ EMPTY v) data in
  let kept := pd.select ((λ v, negb (EMPTY v)) <$> data) (seq 0 (length data)) in
  build_sentiment_df comments w =
    Ok (pd.mkDataFrame kept
          [(Comment, texts); (Sentiment, replicate (length texts) PyNone)])
       (mkWorld (heap w) (factory_seed w) (entropy w) (cwd w)
          (stdout w ++
             [PrintFormatted
                "Summary of sentiment in all Comments 
(%d comments removed from analysis): "
                (length (filter (λ v, EMPTY v) data));
              PrintCounts []])
          (files w)).
Proof.
  intros Hheap Hne texts kept.
  unfold build_sentiment_df.
  rewrite (bind_Ok _ _ _ _ _ (read_list_run _ _ _ Hheap)).
  set (cells := blank_to_nan <$> data).
  set (mask := pd.notna <$> cells).
  set (idx := seq 0 (length data)).
  assert (Hmask : mask = (λ v, negb (EMPTY v)) <$> data).
  { subst mask cells. rewrite <- list_fmap_compose. apply list_fmap_ext.
    intros _ v _. simpl. unfold pd.notna. by rewrite EMPTY_blank_to_nan. }
  assert (Htexts : pd.select mask cells = texts) by apply surviving_texts.
  assert (Hkept : pd.select mask idx = kept) by (by rewrite Hmask).
  assert (Hframe : pd.set_columns (pd.DataFrame_of_list data) [Comment]
            = inr (pd.mkDataFrame idx [(Comment, data)])).
  { destruct data; [done|reflexivity]. }
  rewrite (bind_lift _ _ _ _ Hframe).
  assert (Hreplace :
    pd.replace_inplace (pd.mkDataFrame idx [(Comment, data)]) Comment
      (PyStr (str "")) PyNaN
    = inr (pd.mkDataFrame idx [(Comment, cells)])) by reflexivity.
  rewrite (bind_lift _ _ _ _ Hreplace).
  assert (Hcolumn : pd.getitem (pd.mkDataFrame idx [(Comment, cells)]) Comment
            = inr (pd.mkSeries idx cells)) by reflexivity.
  rewrite (bind_lift _ _ _ _ Hcolumn).
  assert (Hdrop : pd.dropna (pd.mkDataFrame idx [(Comment, cells)]) Comment
            = inr (pd.mkDataFrame kept [(Comment, texts)])).
  { rewrite <- Hkept, <- Htexts. reflexivity. }
  rewrite (bind_lift _ _ _ _ Hdrop).
  assert (Hcolumn' : pd.getitem (pd.mkDataFrame kept [(Comment, texts)]) Comment
            = inr (pd.mkSeries kept texts)) by reflexivity.
  rewrite (bind_lift _ _ _ _ Hcolumn').
  assert (Happly : Series_apply (pd.mkSeries kept texts) get_sentiment
            = inr (pd.mkSeries kept (replicate (length texts) PyNone))).
  { unfold Series_apply. cbn [pd.s_values pd.s_index].
    rewrite apply_get_sentiment; [done|].
    apply Forall_forall. intros v [Hv _]%list_elem_of_filter.
    by apply not_EMPTY_is_str. }
  rewrite (bind_lift _ _ _ _ Happly).
  assert (Hset :
    pd.setitem (pd.mkDataFrame kept [(Comment, texts)]) Sentiment
      (pd.mkSeries kept (replicate (length texts) PyNone))
    = pd.mkDataFrame kept
        [(Comment, texts); (Sentiment, replicate (length texts) PyNone)]).
  { unfold pd.setitem. cbn [pd.index pd.columns pd.s_index pd.s_values].
    rewrite at_label_own_index; [reflexivity| |].
    - rewrite <- Hkept.
      eapply sublist_NoDup; [apply NoDup_seq | apply select_sublist].
    - rewrite length_replicate, <- Hkept, <- Htexts.
      apply select_length. subst idx cells.
      by rewrite length_seq, length_fmap. }
  rewrite Hset.
  assert (Hcounts :
    summarize (pd.mkDataFrame kept
      [(Comment, texts); (Sentiment, replicate (length texts) PyNone)])
    = inr []).
  { unfold summarize, pd.getitem. cbn [pd.columns pd.lookup_column].
    rewrite decide_False by discriminate. rewrite decide_True by done.
    unfold pd.value_counts. cbn [pd.s_values].
    by rewrite filter_notna_replicate_None. }
  assert (Hcount : pd.count_na (pd.mkSeries idx cells)
            = length (filter (λ v, EMPTY v) data)).
  { unfold pd.count_na. cbn [pd.s_values]. subst cells.
    rewrite filter_fmap_length. f_equal. apply list_filter_iff.
    intros v. rewrite EMPTY_blank_to_nan. symmetry. apply Is_true_true. }
  rewrite Hcount.
  rewrite bind_print, (bind_lift _ _ _ _ Hcounts), bind_print.
  unfold mret, M_ret. cbn [heap factory_seed entropy cwd stdout files].
  by rewrite <- app_assoc.
Qed.



(** On the empty list the frame has no column, and naming one column
    is refused. *)
Lemma build_sentiment_df_empty (comments : loc) (w : world) :
  heap w !! comments = Some [] →
  build_sentiment_df comments w = Raise ValueError w.
Proof.
  intros Hheap. unfold build_sentiment_df.
  rewrite (bind_Ok _ _ _ _ _ (read_list_run _ _ _ Hheap)).
  by apply bind_lift_raise.
Qed.


(** C2, as the code has it: when the fetch raises [HttpError] the
    failure is reported and cleaning runs on the empty list, but
    [build_sentiment_df] then raises [ValueError]: the run ends there,
    with no summary printed and no file written. *)
Theorem main_after_fetch_failure (fuel : nat) (args : Namespace)
    (video_id : pystr) (w : world) :
  videoid args = Some video_id →
  video_id ≠ [] →
  commentThreads_list_execute
    (build YOUTUBE_API_SERVICE_NAME YOUTUBE_API_VERSION DEVELOPER_KEY)
    video_id results_cap = inl HttpError →
  0 < fuel →
  ∃ w',
    main fuel args w = Raise ValueError w'
    ∧ stdout w' = stdout w ++ [Print "An HTTP error occurred"]
    ∧ files w' = files w.
Proof.
  intros Hid Hne Hfetch Hfuel.
  unfold main. rewrite Hid. destruct video_id as [|c video_id]; [done|].
  set (l := fresh (dom (heap w))).
  set (w1 := set_heap (<[l := []]> (heap w)) w).
  assert (Hnew : new_list [] w = Ok l w1) by reflexivity.
  rewrite (bind_Ok _ _ _ _ _ Hnew).
  set (w2 := mkWorld (heap w1) (factory_seed w1) (entropy w1) (cwd w1)
               (stdout w1 ++ [Print "An HTTP error occurred"]) (files w1)).
  match goal with
  | |- context [try_except ?body ?catches ?handler] =>
      assert (Htry : try_except body catches handler w1 = Ok l w2)
  end.
  { unfold try_except, get_youtube_comment_threads.
    rewrite (bind_Raise _ _ w1 w1 HttpError);
      [|by rewrite (bind_lift_raise _ _ HttpError)].
    reflexivity. }
  rewrite (bind_Ok _ _ _ _ _ Htry).
  assert (Hheap2 : heap w2 !! l = Some (PyStr <$> [])).
  { subst w2 w1. simpl. by rewrite lookup_insert_eq. }
  destruct (clean_comments_spec l [] fuel w2 Hheap2 Hfuel)
    as (w3 & Hclean & Hheap3 & Hout3 & Hfiles3 & _).
  rewrite (bind_Ok _ _ _ _ _ Hclean).
  assert (Hempty : heap w3 !! l = Some []).
  { by rewrite Hheap3, lookup_insert_eq. }
  rewrite (bind_Raise _ _ _ _ _ (build_sentiment_df_empty l w3 Hempty)).
  exists w3. split; [done|]. by rewrite Hout3, Hfiles3.
Qed.

End Analysis.


Lemma main_after_fetch_failure_witness :
  ∃ w',
    @main sample_collaborators 1
      {| videoid := Some (str "unreachable"); csv := Some (str "y") |}
      empty_world
    = Raise ValueError w'
    ∧ stdout w' = stdout empty_world ++ [Print "An HTTP error occurred"]
    ∧ files w' = files empty_world.
Proof.
  apply (@main_after_fetch_failure sample_collaborators 1
           {| videoid := Some (str "unreachable"); csv := Some (str "y") |}
           (str "unreachable") empty_world).
  - reflexivity.
  - discriminate.
  - reflexivity.
  - lia.
Defined.

(** The script on the sample response: two comments survive, two are
    counted as removed, and the summary lists no label at all, every
    row having been scored [None]. *)
Example main_on_sample_response :
  match @main sample_collaborators 5
          {| videoid := Some (str "abc"); csv := None |} empty_world with
  | Ok _ w' => Some (stdout w')
  | _ => None
  end
  = Some [Print "Comments successfully accessed.";
          PrintFormatted
            "Summary of sentiment in all Comments 
(%d comments removed from analysis): " 2;
          PrintCounts []].
Proof. by vm_compute. Qed.

(** ** [value_counts] *)

Lemma occurrences_app (v : pyval) (l k : list pyval) :
  occurrences v (l ++ k) = occurrences v l + occurrences v k.
Proof. unfold occurrences. by rewrite filter_app, length_app. Qed.

Lemma occurrences_positive (v : pyval) (l : list pyval) :
  0 < occurrences v l ↔ v ∈ l.
Proof.
  unfold occurrences. induction l as [|u l IH].
  - simpl. rewrite elem_of_nil. lia.
  - rewrite filter_cons, elem_of_cons. case_decide as Hu; simpl.
    + subst. split; [auto | lia].
    + rewrite IH. naive_solver.
Qed.

(** Sorting by count keeps the entries. *)
Lemma insert_desc_Permutation (e : pyval * nat) (sorted : list (pyval * nat)) :
  pd.insert_desc e sorted ≡ₚ e :: sorted.
Proof.
  induction sorted as [|e' sorted IH]; simpl; [done|].
  case_decide; [done|]. rewrite IH. apply Permutation_swap.
Qed.

Lemma sort_desc_Permutation (counts : list (pyval * nat)) :
  foldr pd.insert_desc [] counts ≡ₚ counts.
Proof.
  induction counts as [|e counts IH]; simpl; [done|].
  by rewrite insert_desc_Permutation, IH.
Qed.

Lemma tally_keys (v : pyval) (counts : list (pyval * nat)) :
  (pd.tally v counts).*1
  = if decide (v ∈ counts.*1) then counts.*1 else counts.*1 ++ [v].
Proof.
  induction counts as [|[u n] counts IH]; cbn [pd.tally].
  - rewrite fmap_nil. by rewrite decide_False by apply not_elem_of_nil.
  - rewrite !fmap_cons. cbn [fst].
    destruct (decide (u = v)) as [->|Hu].
    + rewrite fmap_cons. cbn [fst].
      by rewrite decide_True by apply list_elem_of_here.
    + rewrite fmap_cons, IH. cbn [fst].
      destruct (decide (v ∈ counts.*1)) as [Hin|Hin].
      * by rewrite decide_True by (by right).
      * rewrite decide_False; [done|].
        rewrite elem_of_cons. naive_solver.
Qed.

Lemma tally_NoDup (v : pyval) (counts : list (pyval * nat)) :
  NoDup counts.*1 → NoDup (pd.tally v counts).*1.
Proof.
  intros Hnd. rewrite tally_keys. case_decide as Hin; [done|].
  apply NoDup_app. split; [done|]. split; [|apply NoDup_singleton].
  intros u Hu ->%list_elem_of_singleton. done.
Qed.

Lemma tally_elem (v u : pyval) (n : nat) (counts : list (pyval * nat)) :
  NoDup counts.*1 →
  (u, n) ∈ pd.tally v counts ↔
    (u ≠ v ∧ (u, n) ∈ counts)
    ∨ (u = v ∧ ((∃ m, (v, m) ∈ counts ∧ n = S m)
                ∨ ((v ∉ counts.*1) ∧ n = 1))).
Proof.
  induction counts as [|[u' n'] counts IH]; simpl; intros Hnd.
  - rewrite list_elem_of_singleton. split.
    + intros [= -> ->]. right. split; [done|]. right.
      split; [apply not_elem_of_nil | done].
    + intros [[_ []%elem_of_nil] | [-> [(m & []%elem_of_nil & _) | [_ ->]]]].
      done.
  - apply NoDup_cons in Hnd as [Hu' Hnd].
    assert (Hkey : ∀ m, (u', m) ∉ counts).
    { intros m Hm. apply Hu'. apply list_elem_of_fmap. by exists (u', m). }
    case_decide as Hv.
    + subst u'. rewrite !elem_of_cons. split.
      * intros [[= -> ->] | Hin].
        -- right. split; [done|]. left. exists n'. split; [by left | done].
        -- destruct (decide (u = v)) as [->|Hne]; [by destruct (Hkey n)|].
           left. split; [done | by right].
      * intros [[Hne [[= -> ->] | Hin]] | [-> [(m & Hm & ->) | [Hnot _]]]].
        -- done.
        -- by right.
        -- apply elem_of_cons in Hm as [[= ->] | Hm]; [by left|].
           by destruct (Hkey m).
        -- destruct Hnot. by left.
    + rewrite !elem_of_cons, (IH Hnd). split.
      * intros [[= -> ->] | [[Hne Hin] | [-> Hrest]]].
        -- left. split; [done | by left].
        -- left. split; [done | by right].
        -- right. split; [done|].
           destruct Hrest as [(m & Hm & ->) | [Hnot ->]].
           ++ left. exists m. split; [by right | done].
           ++ right. split; [|done].
              intros [<- | Hin]; [done | by destruct Hnot].
      * intros [[Hne [[= -> ->] | Hin]] | [-> [(m & Hm & ->) | [Hnot ->]]]].
        -- by left.
        -- right. left. done.
        -- right. right. split; [done|]. left.
           apply elem_of_cons in Hm as [[= -> ->] | Hm]; [done|].
           exists m. done.
        -- right. right. split; [done|]. right.
           split; [|done]. intros Hin. apply Hnot. by right.
Qed.

Lemma counts_of_key (counts : list (pyval * nat)) (seen : list pyval)
    (v : pyval) :
  counts_of counts seen → (v ∈ counts.*1 ↔ v ∈ seen).
Proof.
  intros [_ Hcounts].
  rewrite <- (occurrences_positive v seen), list_elem_of_fmap. split.
  - intros ([u n] & -> & Hin). simpl. apply Hcounts in Hin as [Hn ->]. done.
  - intros Hpos. exists (v, occurrences v seen). split; [done|].
    by apply Hcounts.
Qed.

Lemma counts_of_tally (counts : list (pyval * nat)) (seen : list pyval)
    (v : pyval) :
  counts_of counts seen → counts_of (pd.tally v counts) (seen ++ [v]).
Proof.
  intros Hinv. pose proof (counts_of_key counts seen v Hinv) as Hkey.
  destruct Hinv as [Hnd Hcounts]. split; [by apply tally_NoDup|].
  intros u n. rewrite (tally_elem _ _ _ _ Hnd), occurrences_app.
  assert (Hlast : occurrences u [v] = if decide (v = u) then 1 else 0).
  { unfold occurrences. rewrite filter_cons, filter_nil.
    by repeat case_decide. }
  rewrite Hlast. split.
  - intros [[Hne Hin] | [-> Hrest]].
    + apply Hcounts in Hin as [Hn ->].
      rewrite decide_False by done. lia.
    + rewrite decide_True by done.
      destruct Hrest as [(m & Hm & ->) | [Hnot ->]].
      * apply Hcounts in Hm as [_ ->]. lia.
      * rewrite Hkey, <- occurrences_positive in Hnot. lia.
  - intros [Hn ->]. case_decide as Huv.
    + subst u. right. split; [done|].
      destruct (decide (v ∈ seen)) as [Hin|Hnot].
      * left. exists (occurrences v seen). split; [|lia].
        apply Hcounts. split; [by apply occurrences_positive | done].
      * right. split; [by rewrite Hkey|].
        rewrite <- occurrences_positive in Hnot. lia.
    + left. split; [done|]. apply Hcounts. lia.
Qed.

Lemma counts_of_foldl (l seen : list pyval) (counts : list (pyval * nat)) :
  counts_of counts seen →
  counts_of (foldl (λ counts v, pd.tally v counts) counts l) (seen ++ l).
Proof.
  revert seen counts. induction l as [|v l IH]; intros seen counts Hinv; simpl.
  - by rewrite app_nil_r.
  - rewrite cons_middle, (assoc_L (++)). apply IH. by apply counts_of_tally.
Qed.

(** [value_counts] lists exactly the values of the series that are not
    missing, each once, with the number of times it occurs. *)
Lemma value_counts_spec (s : pd.Series) :
  counts_of (pd.value_counts s)
    (filter (λ v, pd.notna v = true) (pd.s_values s)).
Proof.
  unfold pd.value_counts.
  set (vs := filter _ (pd.s_values s)).
  assert (Hinv : counts_of (foldl (λ counts v, pd.tally v counts) [] vs) vs).
  { apply (counts_of_foldl vs [] []). split; [constructor|].
    intros v n. rewrite elem_of_nil. unfold occurrences. simpl. lia. }
  destruct Hinv as [Hnd Hcounts]. split.
  - by rewrite sort_desc_Permutation.
  - intros v n. by rewrite sort_desc_Permutation.
Qed.

Lemma occurrences_notna (v : pyval) (vs : list pyval) :
  pd.notna v = true →
  occurrences v (filter (λ u, pd.notna u = true) vs) = occurrences v vs.
Proof.
  intros Hv. unfold occurrences. rewrite list_filter_filter. f_equal.
  apply list_filter_iff. intros u. naive_solver.
Qed.

(** C3, amended: the mapping [summarize] yields has one key for each
    value that occurs in the Sentiment column and is not missing, and no
    other key: a label that no row carries is not a key.  Each key maps
    to the number of rows that carry it, which is at least one. *)
Theorem summarize_counts_occurring_labels (df : pd.DataFrame)
    (counts : list (pyval * nat)) :
  summarize df = inr counts →
  ∃ column,
    pd.getitem df Sentiment = inr column
    ∧ NoDup counts.*1
    ∧ (∀ label, label ∈ counts.*1 ↔
         label ∈ pd.s_values column ∧ pd.notna label = true)
    ∧ (∀ label n, (label, n) ∈ counts →
         n = occurrences label (pd.s_values column) ∧ 0 < n).
Proof.
  unfold summarize. destruct (pd.getitem df Sentiment) as [e|column]; [done|].
  intros [= <-]. exists column. split; [done|].
  pose proof (value_counts_spec column) as Hspec.
  split; [apply Hspec|]. split.
  - intros label. rewrite (counts_of_key _ _ label Hspec).
    rewrite list_elem_of_filter. tauto.
  - intros label n Hin. destruct Hspec as [_ Hcounts].
    apply Hcounts in Hin as [Hn ->]. split; [|done].
    apply occurrences_notna.
    apply occurrences_positive, list_elem_of_filter in Hn. tauto.
Qed.

Lemma summarize_counts_occurring_labels_witness :
  ∃ column,
    pd.getitem one_positive_row Sentiment = inr column
    ∧ NoDup [(Positive, 1)].*1
    ∧ (∀ label, label ∈ [(Positive, 1)].*1 ↔
         label ∈ pd.s_values column ∧ pd.notna label = true)
    ∧ (∀ label n, (label, n) ∈ [(Positive, 1)] →
         n = occurrences label (pd.s_values column) ∧ 0 < n).
Proof.
  apply (summarize_counts_occurring_labels one_positive_row [(Positive, 1)]).
  reflexivity.
Defined.

(** C3 as stated fails: the summary of a frame whose one row is
    Positive has the single key Positive; Negative, which no row
    carries, is not a key. *)
Lemma summarize_omits_absent_labels :
  ¬ (∀ (df : pd.DataFrame) (counts : list (pyval * nat)),
       summarize df = inr counts →
       ∀ label, label ∈ counts.*1 ↔ label ∈ [Positive; Negative; Neutral]).
Proof.
  intros Hclaim.
  assert (Hneg : Negative ∈ [(Positive, 1)].*1).
  { apply (Hclaim one_positive_row [(Positive, 1)] eq_refl Negative).
    apply elem_of_cons. right. apply list_elem_of_here. }
  simpl in Hneg. apply list_elem_of_singleton in Hneg. discriminate.
Qed.

(** On the frames the script itself builds the summary has no key at
    all, every row having been scored [None]. *)
Example summarize_sample_frame :
  match (@clean_comments sample_collaborators 5 1%positive
           ≫= @build_sentiment_df sample_collaborators) sample_world with
  | Ok df _ => Some (summarize df)
  | _ => None
  end = Some (inr []).
Proof. by vm_compute. Qed.

(** * Further properties of the script *)

(** ** [remove_emoji] only deletes *)

Lemma replace_scan_sublist (old : pystr) (s : pystr) :
  ∀ skip, replace_scan old [] skip s `sublist_of` s.
Proof.
  induction s as [|c s IH]; intros skip; cbn [replace_scan]; [done|].
  destruct skip as [|k]; [|by apply sublist_cons].
  destruct (startswith (c :: s) old).
  - cbn [app]. by apply sublist_cons.
  - by apply sublist_skip.
Qed.

Lemma str_replace_empty_sublist (s old : pystr) :
  str_replace s old (str "") `sublist_of` s.
Proof.
  unfold str_replace. change (str "") with (@nil N).
  destruct old as [|c old]; [|apply replace_scan_sublist].
  cbn [app]. induction s as [|d s IH]; [done|].
  cbn. by apply sublist_skip.
Qed.

Lemma foldl_replace_sublist (keys : list pystr) (text : pystr) :
  foldl (λ demoji_text emoji, str_replace demoji_text emoji (str "")) text keys
  `sublist_of` text.
Proof.
  revert text. induction keys as [|k keys IH]; intros text; simpl; [done|].
  etrans; [apply IH | apply str_replace_empty_sublist].
Qed.

(** X1: whatever the detector reports, the text [remove_emoji] returns
    is a subsequence of its argument: code points are deleted, none is
    added, changed or moved. *)
Theorem remove_emoji_subsequence `{Collaborators} (text : pystr) :
  remove_emoji text `sublist_of` text
  ∧ length (remove_emoji text) ≤ length text.
Proof.
  assert (Hsub : remove_emoji text `sublist_of` text)
    by apply foldl_replace_sublist.
  split; [done | by apply sublist_length].
Qed.

(** X2: when every emoji found is a single code point, the order in
    which the detector hands them out does not matter: two detectors
    that find the same emoji in different orders give the same text. *)
Theorem remove_emoji_order_irrelevant (C1 C2 : Collaborators) (text : pystr) :
  @demoji_findall C1 text ≡ₚ @demoji_findall C2 text →
  (∀ e, e ∈ @demoji_findall C1 text → length e = 1) →
  @remove_emoji C1 text = @remove_emoji C2 text.
Proof.
  intros Hperm Hone. unfold remove_emoji.
  rewrite !remove_single_code_points.
  - apply list_filter_iff. intros c. by rewrite Hperm.
  - intros e He. apply Hone. by rewrite Hperm.
  - done.
Qed.

Lemma remove_emoji_order_irrelevant_witness :
  @remove_emoji heart_collaborators
    (red_heart ++ str " nice " ++ grinning_face ++ red_heart)
  = @remove_emoji reversed_heart_collaborators
      (red_heart ++ str " nice " ++ grinning_face ++ red_heart).
Proof.
  apply (remove_emoji_order_irrelevant heart_collaborators
           reversed_heart_collaborators).
  - vm_compute. apply Permutation_swap.
  - intros e He. vm_compute in He.
    apply elem_of_cons in He as [-> | He]; [done|].
    apply list_elem_of_singleton in He. by subst.
Defined.

(** ** [remove_non_english], case by case *)

(** X3: a call returns [None] exactly when the detector names a
    language other than "en"; in every case the value is the argument
    itself, the empty string or [None], never an altered text, and the
    only thing the call changes in the world is the seed. *)
Theorem remove_non_english_cases `{Collaborators} (text : pystr) (w : world) :
  ∃ v,
    remove_non_english text w = Ok v (set_seed 0 w)
    ∧ (v = PyNone ↔
         ∃ language, langdetect_detect (Seeded 0) text = inr language
                     ∧ language ≠ str "en")
    ∧ (v = PyStr text ∨ v = PyStr (str "") ∨ v = PyNone)
    ∧ heap (set_seed 0 w) = heap w
    ∧ stdout (set_seed 0 w) = stdout w.
Proof.
  eexists. split; [apply remove_non_english_run|].
  destruct (langdetect_detect (Seeded 0) text) as [e|language]; simpl.
  - split; [|by auto]. split; [done|]. by intros (language & ? & _).
  - case_decide as Hen; simpl.
    + split; [|by auto]. split; [done|].
      intros (language' & [= <-] & Hne). done.
    + split; [|by auto]. split; [|done]. intros _. eauto.
Qed.

(** ** [clean_comments] on lists that hold more than strings *)

Section CleaningTwice.
Context {C : Collaborators}.

(** The loop up to the first entry that is not a string: the entries
    before it are cleaned, then [remove_emoji] is handed that entry and
    the loop ends in [TypeError], leaving it and what follows as they
    were. *)
Lemma clean_comments_loop_stops (comments : loc) (rest : list pystr)
    (v : pyval) (tail : list pyval) :
  is_str v = false →
  ∀ (fuel index : nat) (w : world) (done : list pyval),
    heap w !! comments = Some (done ++ (PyStr <$> rest) ++ v :: tail) →
    length done = index →
    length rest < fuel →
    ∃ w',
      clean_comments_loop fuel comments index w = Raise TypeError w'
      ∧ heap w' = <[comments := done ++ (cleaned <$> rest) ++ v :: tail]> (heap w)
      ∧ stdout w' = stdout w ∧ files w' = files w.
Proof.
  intros Hv.
  induction rest as [|raw rest IH]; intros fuel index w done Hheap Hlen Hfuel;
    (destruct fuel as [|fuel]; [simpl in Hfuel; lia|]);
    cbn [clean_comments_loop];
    rewrite (bind_Ok _ _ _ _ _ (read_list_run _ _ _ Hheap)); subst index.
  - exists w. cbn [fmap list_fmap app].
    rewrite list_lookup_middle by done.
    rewrite (insert_id _ _ _ Hheap).
    by destruct v.
  - rewrite fmap_cons. cbn [app]. rewrite list_lookup_middle by done.
    rewrite (bind_Ok _ _ _ _ _ (list_setitem_run _ _ _ _ _ Hheap)).
    set (w1 := set_heap _ w).
    assert (Hheap1 : heap w1 !! comments
              = Some (done ++ PyStr (remove_emoji raw)
                        :: (PyStr <$> rest) ++ v :: tail)).
    { subst w1. simpl. rewrite lookup_insert_eq. f_equal.
      by rewrite insert_app_r_alt, Nat.sub_diag by lia. }
    rewrite (bind_Ok _ _ _ _ _ (read_list_run _ _ _ Hheap1)).
    rewrite list_lookup_middle by done.
    rewrite (bind_Ok _ _ _ _ _ (remove_non_english_filtered _ _)).
    assert (Hheap1' : heap (set_seed 0 w1) !! comments
              = Some (done ++ PyStr (remove_emoji raw)
                        :: (PyStr <$> rest) ++ v :: tail))
      by exact Hheap1.
    rewrite (bind_Ok _ _ _ _ _ (list_setitem_run _ _ _ _ _ Hheap1')).
    set (w2 := set_heap _ (set_seed 0 w1)).
    destruct (IH fuel (S (length done)) w2 (done ++ [cleaned raw]))
      as (w' & Hrun & Hheap' & Hout & Hfiles).
    + subst w2. simpl. rewrite lookup_insert_eq. f_equal.
      rewrite insert_app_r_alt, Nat.sub_diag by lia. simpl.
      by rewrite <- app_assoc.
    + rewrite length_app. simpl. lia.
    + simpl in Hfuel. lia.
    + exists w'. split; [exact Hrun|].
      rewrite Hheap', Hout, Hfiles. subst w2 w1. simpl.
      rewrite !insert_insert_eq, <- app_assoc. done.
Qed.

(** X4: when the list holds an entry that is not a string,
    [clean_comments] raises [TypeError] at the first such entry; the
    strings before it have already been overwritten by their cleaned
    forms, the entry itself and the rest of the list are as they were. *)
Theorem clean_comments_stops_at_non_string (comments : loc)
    (before : list pystr) (v : pyval) (tail : list pyval) (fuel : nat)
    (w : world) :
  heap w !! comments = Some ((PyStr <$> before) ++ v :: tail) →
  is_str v = false →
  length before < fuel →
  ∃ w',
    clean_comments fuel comments w = Raise TypeError w'
    ∧ heap w' !! comments = Some ((cleaned <$> before) ++ v :: tail)
    ∧ (∀ l, l ≠ comments → heap w' !! l = heap w !! l).
Proof.
  intros Hheap Hv Hfuel.
  destruct (clean_comments_loop_stops comments before v tail Hv fuel 0 w []
              Hheap eq_refl Hfuel) as (w' & Hrun & Hheap' & _).
  exists w'. split; [|split].
  - unfold clean_comments. by rewrite (bind_Raise _ _ _ _ _ Hrun).
  - by rewrite Hheap', lookup_insert_eq.
  - intros l Hl. by rewrite Hheap', lookup_insert_ne.
Qed.

(** A list with an entry that is not a string splits at the first one. *)
Lemma first_non_string (l : list pyval) :
  (∃ v, v ∈ l ∧ is_str v = false) →
  ∃ before v tail,
    l = (PyStr <$> before) ++ v :: tail ∧ is_str v = false.
Proof.
  induction l as [|u l IH]; intros (v & Hin & Hv).
  - by apply elem_of_nil in Hin.
  - destruct u as [|s|].
    + by exists [], PyNone, l.
    + apply elem_of_cons in Hin as [-> | Hin]; [done|].
      destruct IH as (before & v' & tail & -> & Hv'); [by eauto|].
      by exists (s :: before), v', tail.
    + by exists [], PyNaN, l.
Qed.

(** X5: cleaning is not repeatable.  When some comment of the list is
    detected as a language other than "en", a first call of
    [clean_comments] succeeds and, the list now holding [None], a second
    call on the same list raises [TypeError]. *)
Theorem clean_comments_twice_raises (comments : loc) (xs : list pystr)
    (raw language : pystr) (fuel : nat) (w : world) :
  heap w !! comments = Some (PyStr <$> xs) →
  length xs < fuel →
  raw ∈ xs →
  langdetect_detect (Seeded 0) (remove_emoji raw) = inr language →
  language ≠ str "en" →
  ∃ w1 w2,
    clean_comments fuel comments w = Ok comments w1
    ∧ clean_comments fuel comments w1 = Raise TypeError w2.
Proof.
  intros Hheap Hfuel Hraw Hdet Hne.
  destruct (clean_comments_spec comments xs fuel w Hheap Hfuel)
    as (w1 & Hrun1 & Hheap1 & _).
  assert (Hnone : cleaned raw = PyNone).
  { unfold cleaned, language_filtered. rewrite Hdet.
    by rewrite decide_False. }
  destruct (first_non_string (cleaned <$> xs))
    as (before & v & tail & Hsplit & Hv).
  { exists PyNone. split; [|done]. rewrite <- Hnone.
    by apply list_elem_of_fmap_2. }
  assert (Hlen : length before < fuel).
  { apply (f_equal length) in Hsplit.
    rewrite length_fmap, length_app, length_fmap in Hsplit. lia. }
  assert (Hheap1' : heap w1 !! comments = Some ((PyStr <$> before) ++ v :: tail)).
  { by rewrite Hheap1, lookup_insert_eq, Hsplit. }
  destruct (clean_comments_loop_stops comments before v tail Hv fuel 0 w1 []
              Hheap1' eq_refl Hlen) as (w2 & Hrun2 & _).
  exists w1, w2. split; [exact Hrun1|].
  unfold clean_comments. by rewrite (bind_Raise _ _ _ _ _ Hrun2).
Qed.

Lemma cleaned_cases (raw : pystr) :
  cleaned raw = PyNone ∨ cleaned raw = PyStr (str "")
  ∨ cleaned raw = PyStr (remove_emoji raw).
Proof.
  unfold cleaned, language_filtered.
  destruct (langdetect_detect (Seeded 0) (remove_emoji raw)) as [e|language];
    [right; left; reflexivity|].
  case_decide; [right; right | left]; reflexivity.
Qed.

(** X6: every entry [clean_comments] leaves in the list is [None], the
    empty string, or a subsequence of the raw comment it replaces:
    cleaning never puts a code point into a comment. *)
Theorem clean_comments_entries (comments : loc) (xs : list pystr)
    (fuel : nat) (w : world) :
  heap w !! comments = Some (PyStr <$> xs) →
  length xs < fuel →
  ∃ w' out,
    clean_comments fuel comments w = Ok comments w'
    ∧ heap w' !! comments = Some out
    ∧ Forall2 (λ raw v,
        v = PyNone ∨ v = PyStr (str "")
        ∨ ∃ s, v = PyStr s ∧ s `sublist_of` raw) xs out.
Proof.
  intros Hheap Hfuel.
  destruct (clean_comments_spec comments xs fuel w Hheap Hfuel)
    as (w' & Hrun & Hheap' & _).
  exists w', (cleaned <$> xs). split; [exact Hrun|].
  split; [by rewrite Hheap', lookup_insert_eq|].
  apply Forall2_fmap_r, Forall_Forall2_diag, Forall_forall.
  intros raw _. unfold compose.
  destruct (cleaned_cases raw) as [-> | [-> | ->]]; [by left | by right; left |].
  right. right. eexists. split; [reflexivity|]. apply foldl_replace_sublist.
Qed.

End CleaningTwice.

Lemma clean_comments_stops_at_non_string_witness :
  ∃ w',
    @clean_comments sample_collaborators 3 1%positive
      (mkWorld {[ 1%positive :=
                    (PyStr <$> [str "Bad content"; str "Bonjour"])
                    ++ PyNone :: [PyStr (str "later")] ]}
         None 0%N [] [] [])
    = Raise TypeError w'
    ∧ heap w' !! 1%positive
      = Some ((@cleaned sample_collaborators
                 <$> [str "Bad content"; str "Bonjour"])
              ++ PyNone :: [PyStr (str "later")])
    ∧ (∀ l, l ≠ 1%positive →
         heap w' !! l
         = heap (mkWorld {[ 1%positive :=
                    (PyStr <$> [str "Bad content"; str "Bonjour"])
                    ++ PyNone :: [PyStr (str "later")] ]}
                   None 0%N [] [] []) !! l).
Proof.
  apply (@clean_comments_stops_at_non_string sample_collaborators 1%positive
           [str "Bad content"; str "Bonjour"] PyNone [PyStr (str "later")] 3).
  - by vm_compute.
  - reflexivity.
  - simpl. lia.
Defined.

Lemma clean_comments_twice_raises_witness :
  ∃ w1 w2,
    @clean_comments sample_collaborators 5 1%positive sample_world
    = Ok 1%positive w1
    ∧ @clean_comments sample_collaborators 5 1%positive w1
      = Raise TypeError w2.
Proof.
  apply (@clean_comments_twice_raises sample_collaborators 1%positive
           sample_comments (str "Bonjour le monde") (str "fr") 5 sample_world).
  - by vm_compute.
  - simpl. lia.
  - unfold sample_comments. do 3 apply list_elem_of_further.
    apply list_elem_of_here.
  - by vm_compute.
  - discriminate.
Defined.

Lemma clean_comments_entries_witness :
  ∃ w' out,
    @clean_comments sample_collaborators 5 1%positive sample_world
    = Ok 1%positive w'
    ∧ heap w' !! 1%positive = Some out
    ∧ Forall2 (λ raw v,
        v = PyNone ∨ v = PyStr (str "")
        ∨ ∃ s, v = PyStr s ∧ s `sublist_of` raw) sample_comments out.
Proof.
  apply (@clean_comments_entries sample_collaborators 1%positive
           sample_comments 5 sample_world).
  - by vm_compute.
  - simpl. lia.
Defined.

(** ** Fetching the comments *)

Lemma list_append_run (l : loc) (v : pyval) (xs : list pyval) (w : world) :
  heap w !! l = Some xs →
  list_append l v w = Ok () (set_heap (<[l := xs ++ [v]]> (heap w)) w).
Proof.
  intros Hl. unfold list_append.
  by rewrite (bind_Ok _ _ _ _ _ (read_list_run _ _ _ Hl)).
Qed.

Section Fetching.
Context {C : Collaborators}.

(** Appending the text of each item, in turn, to a list object. *)
Lemma for_each_append (l : loc) (threads : list thread) :
  ∀ (acc : list pyval) (w : world),
    heap w !! l = Some acc →
    ∃ w',
      for_each threads (λ item,
        let comment := topLevelComment (snippet item) in
        let text := textDisplay (comment_snippet_of comment) in
        list_append l (PyStr text)) w = Ok () w'
      ∧ heap w' = <[l := acc ++ (PyStr <$> (comment_text <$> threads))]> (heap w)
      ∧ stdout w' = stdout w ∧ files w' = files w ∧ cwd w' = cwd w.
Proof.
  induction threads as [|item threads IH]; intros acc w Hheap;
    cbn [for_each].
  - exists w. split; [done|].
    by rewrite app_nil_r, (insert_id _ _ _ Hheap).
  - cbv zeta.
    rewrite (bind_Ok _ _ _ _ _ (list_append_run _ _ _ _ Hheap)).
    set (w1 := set_heap _ w).
    destruct (IH (acc ++ [PyStr (comment_text item)]) w1)
      as (w' & Hrun & Hheap' & Hout & Hfiles & Hcwd).
    { subst w1. simpl. by rewrite lookup_insert_eq. }
    exists w'. split; [exact Hrun|].
    rewrite Hheap', Hout, Hfiles, Hcwd. subst w1. simpl.
    by rewrite insert_insert_eq, <- app_assoc.
Qed.

(** A successful fetch, step by step. *)
Lemma get_youtube_comment_threads_run (youtube : service) (video_id : pystr)
    (results : response) (w : world) :
  commentThreads_list_execute youtube video_id results_cap = inr results →
  ∃ w',
    get_youtube_comment_threads youtube video_id w
    = Ok (fresh (dom (heap w))) w'
    ∧ heap w'
      = <[fresh (dom (heap w)) := PyStr <$> (comment_text <$> items results)]>
          (heap w)
    ∧ stdout w' = stdout w ∧ files w' = files w ∧ cwd w' = cwd w.
Proof.
  intros Hfetch. unfold get_youtube_comment_threads.
  rewrite (bind_lift _ _ _ _ Hfetch).
  set (l := fresh (dom (heap w))).
  assert (Hnew : new_list [] w = Ok l (set_heap (<[l := []]> (heap w)) w))
    by reflexivity.
  rewrite (bind_Ok _ _ _ _ _ Hnew).
  set (w1 := set_heap _ w).
  destruct (for_each_append l (items results) [] w1)
    as (w' & Hrun & Hheap' & Hout & Hfiles & Hcwd).
  { subst w1. simpl. by rewrite lookup_insert_eq. }
  exists w'. rewrite (bind_Ok _ _ _ _ _ Hrun). split; [done|].
  rewrite Hheap', Hout, Hfiles, Hcwd. subst w1. simpl.
  by rewrite insert_insert_eq.
Qed.

(** X7: a successful [get_youtube_comment_threads] returns a list
    object that did not exist before; it holds the [textDisplay] of the
    top-level comment of every item of the response, one entry per item
    and in the order of the response, and no other list object is
    changed. *)
Theorem get_youtube_comment_threads_fresh_list (youtube : service)
    (video_id : pystr) (results : response) (w : world) :
  commentThreads_list_execute youtube video_id results_cap = inr results →
  ∃ comments_text w' texts,
    get_youtube_comment_threads youtube video_id w = Ok comments_text w'
    ∧ heap w !! comments_text = None
    ∧ heap w' !! comments_text = Some texts
    ∧ length texts = length (items results)
    ∧ (∀ i item, items results !! i = Some item →
         texts !! i = Some (PyStr (comment_text item)))
    ∧ (∀ l, l ≠ comments_text → heap w' !! l = heap w !! l).
Proof.
  intros Hfetch.
  destruct (get_youtube_comment_threads_run youtube video_id results w Hfetch)
    as (w' & Hrun & Hheap' & _).
  eexists _, w', _. split; [exact Hrun|].
  split; [apply not_elem_of_dom, is_fresh|].
  split; [by rewrite Hheap', lookup_insert_eq|].
  split; [by rewrite !length_fmap|]. split.
  - intros i item Hi. by rewrite !list_lookup_fmap, Hi.
  - intros l Hl. by rewrite Hheap', lookup_insert_ne.
Qed.

(** ** The whole run *)

(** X8: without a video id, [None] or the empty string, the script
    exits at once: nothing is fetched, allocated, printed or written. *)
Theorem main_without_videoid (fuel : nat) (args : Namespace) (w : world) :
  videoid args = None ∨ videoid args = Some (str "") →
  main fuel args w
  = Raise (SystemExit "Please specify videoid using the --videoid= parameter.") w.
Proof. unfold main. by intros [-> | ->]. Qed.

(** The [try] statement of the script when the fetch succeeds. *)
Lemma try_fetch_succeeds (video_id : pystr) (results : response)
    (video_comments : loc) (w : world) :
  commentThreads_list_execute
    (build YOUTUBE_API_SERVICE_NAME YOUTUBE_API_VERSION DEVELOPER_KEY)
    video_id results_cap = inr results →
  ∃ fetched w',
    try_except
      (get_youtube_comment_threads
         (build YOUTUBE_API_SERVICE_NAME YOUTUBE_API_VERSION DEVELOPER_KEY)
         video_id
       ≫= λ fetched,
            print (Print "Comments successfully accessed.");;
            mret fetched)
      (λ e, bool_decide (e = HttpError))
      (print (Print "An HTTP error occurred");; mret video_comments) w
    = Ok fetched w'
    ∧ heap w' !! fetched = Some (PyStr <$> (comment_text <$> items results))
    ∧ stdout w' = stdout w ++ [Print "Comments successfully accessed."]
    ∧ files w' = files w ∧ cwd w' = cwd w.
Proof.
  intros Hfetch.
  destruct (get_youtube_comment_threads_run _ video_id results w Hfetch)
    as (w2 & Hrun & Hheap2 & Hout2 & Hfiles2 & Hcwd2).
  unfold try_except. rewrite (bind_Ok _ _ _ _ _ Hrun), bind_print.
  eexists _, _. split; [reflexivity|]. simpl.
  rewrite Hheap2, lookup_insert_eq, Hout2, Hfiles2, Hcwd2. done.
Qed.


(** X10: a video without comments ends the run as a failed fetch does.
    The fetch succeeds and says so, cleaning has nothing to do, and
    [build_sentiment_df] raises [ValueError] on the empty list: no
    summary is printed and no file written. *)
Theorem main_without_comments (fuel : nat) (args : Namespace)
    (video_id : pystr) (results : response) (w : world) :
  videoid args = Some video_id →
  video_id ≠ [] →
  commentThreads_list_execute
    (build YOUTUBE_API_SERVICE_NAME YOUTUBE_API_VERSION DEVELOPER_KEY)
    video_id results_cap = inr results →
  items results = [] →
  0 < fuel →
  ∃ w',
    main fuel args w = Raise ValueError w'
    ∧ stdout w' = stdout w ++ [Print "Comments successfully accessed."]
    ∧ files w' = files w.
Proof.
  intros Hid Hne Hfetch Hitems Hfuel.
  unfold main. rewrite Hid. destruct video_id as [|c video_id]; [done|].
  set (l := fresh (dom (heap w))).
  set (w1 := set_heap (<[l := []]> (heap w)) w).
  assert (Hnew : new_list [] w = Ok l w1) by reflexivity.
  rewrite (bind_Ok _ _ _ _ _ Hnew).
  destruct (try_fetch_succeeds (c :: video_id) results l w1 Hfetch)
    as (fetched & w2 & Htry & Hheap2 & Hout2 & Hfiles2 & _).
  rewrite (bind_Ok _ _ _ _ _ Htry).
  rewrite Hitems in Hheap2.
  destruct (clean_comments_spec fetched [] fuel w2 Hheap2 Hfuel)
    as (w3 & Hclean & Hheap3 & Hout3 & Hfiles3 & _).
  rewrite (bind_Ok _ _ _ _ _ Hclean).
  assert (Hempty : heap w3 !! fetched = Some [])
    by (by rewrite Hheap3, lookup_insert_eq).
  rewrite (bind_Raise _ _ _ _ _ (build_sentiment_df_empty fetched w3 Hempty)).
  exists w3. split; [done|].
  rewrite Hout3, Hout2, Hfiles3, Hfiles2. by subst w1.
Qed.

(** X11: only [HttpError] is caught.  Any other exception of the fetch
    ends the run with that exception: nothing is printed, cleaned or
    written. *)
Theorem main_other_fetch_exception (fuel : nat) (args : Namespace)
    (video_id : pystr) (e : exn) (w : world) :
  videoid args = Some video_id →
  video_id ≠ [] →
  commentThreads_list_execute
    (build YOUTUBE_API_SERVICE_NAME YOUTUBE_API_VERSION DEVELOPER_KEY)
    video_id results_cap = inl e →
  e ≠ HttpError →
  ∃ w',
    main fuel args w = Raise e w'
    ∧ stdout w' = stdout w
    ∧ files w' = files w
    ∧ (∀ l xs, heap w !! l = Some xs → heap w' !! l = Some xs).
Proof.
  intros Hid Hne Hfetch He.
  unfold main. rewrite Hid. destruct video_id as [|c video_id]; [done|].
  set (l := fresh (dom (heap w))).
  set (w1 := set_heap (<[l := []]> (heap w)) w).
  assert (Hnew : new_list [] w = Ok l w1) by reflexivity.
  rewrite (bind_Ok _ _ _ _ _ Hnew).
  exists w1. split; [|split; [done|split; [done|]]].
  - apply bind_Raise. unfold try_except.
    rewrite (bind_Raise _ _ w1 w1 e).
    + by rewrite bool_decide_eq_false_2.
    + unfold get_youtube_comment_threads.
      by rewrite (bind_lift_raise _ _ e).
  - intros l' xs Hl'. subst w1. simpl. rewrite lookup_insert_ne; [done|].
    intros <-. assert (Hfresh : heap w !! l = None)
      by apply not_elem_of_dom, is_fresh.
    congruence.
Qed.

End Fetching.

Lemma get_youtube_comment_threads_fresh_list_witness :
  ∃ comments_text w' texts,
    @get_youtube_comment_threads sample_collaborators
      (build YOUTUBE_API_SERVICE_NAME YOUTUBE_API_VERSION DEVELOPER_KEY)
      (str "abc") sample_world
    = Ok comments_text w'
    ∧ heap sample_world !! comments_text = None
    ∧ heap w' !! comments_text = Some texts
    ∧ length texts
      = length (items {| items := sample_thread <$> sample_comments |})
    ∧ (∀ i item,
         items {| items := sample_thread <$> sample_comments |} !! i
         = Some item →
         texts !! i = Some (PyStr (comment_text item)))
    ∧ (∀ l, l ≠ comments_text → heap w' !! l = heap sample_world !! l).
Proof.
  apply (@get_youtube_comment_threads_fresh_list sample_collaborators
           (build YOUTUBE_API_SERVICE_NAME YOUTUBE_API_VERSION DEVELOPER_KEY)
           (str "abc") {| items := sample_thread <$> sample_comments |}
           sample_world).
  reflexivity.
Defined.

Lemma main_without_videoid_witness :
  @main sample_collaborators 0 {| videoid := None; csv := Some (str "y") |}
    empty_world
  = Raise (SystemExit "Please specify videoid using the --videoid= parameter.")
      empty_world.
Proof.
  apply (@main_without_videoid sample_collaborators 0
           {| videoid := None; csv := Some (str "y") |} empty_world).
  by left.
Defined.


Lemma main_without_comments_witness :
  ∃ w',
    @main quiet_collaborators 1
      {| videoid := Some (str "abc"); csv := Some (str "y") |} empty_world
    = Raise ValueError w'
    ∧ stdout w' = stdout empty_world ++ [Print "Comments successfully accessed."]
    ∧ files w' = files empty_world.
Proof.
  apply (@main_without_comments quiet_collaborators 1
           {| videoid := Some (str "abc"); csv := Some (str "y") |}
           (str "abc") {| items := [] |} empty_world).
  - reflexivity.
  - discriminate.
  - reflexivity.
  - reflexivity.
  - lia.
Defined.

Lemma main_other_fetch_exception_witness :
  ∃ w',
    @main quiet_collaborators 1
      {| videoid := Some (str "private"); csv := None |} sample_world
    = Raise KeyError w'
    ∧ stdout w' = stdout sample_world
    ∧ files w' = files sample_world
    ∧ (∀ l xs, heap sample_world !! l = Some xs → heap w' !! l = Some xs).
Proof.
  apply (@main_other_fetch_exception quiet_collaborators 1
           {| videoid := Some (str "private"); csv := None |}
           (str "private") KeyError sample_world).
  - reflexivity.
  - discriminate.
  - reflexivity.
  - discriminate.
Defined.

(** ** [build_sentiment_df] at its edges *)

Section AnalysisEdges.
Context {C : Collaborators}.





(** X13: [build_sentiment_df] raises exactly when its list is empty,
    the exception is then [ValueError] and the world is left as it was;
    otherwise it returns, and all it has changed is the console, by two
    lines.  It never writes to the list it was given. *)
Theorem build_sentiment_df_effects (comments : loc) (data : list pyval)
    (w : world) :
  heap w !! comments = Some data →
  (data = [] ∧ build_sentiment_df comments w = Raise ValueError w)
  ∨ (data ≠ [] ∧
     ∃ df w' line counts,
       build_sentiment_df comments w = Ok df w'
       ∧ heap w' = heap w
       ∧ files w' = files w
       ∧ factory_seed w' = factory_seed w
       ∧ stdout w' = stdout w ++ [line; PrintCounts counts]).
Proof.
  intros Hheap. destruct (decide (data = [])) as [-> | Hne].
  - left. split; [done|]. by apply build_sentiment_df_empty.
  - right. split; [done|].
    pose proof (build_sentiment_df_spec comments data w Hheap Hne) as Hrun.
    cbv zeta in Hrun. eexists _, _, _, _. split; [exact Hrun|]. done.
Qed.

End AnalysisEdges.


Lemma build_sentiment_df_effects_witness :
  (PyStr <$> sample_comments = []
   ∧ @build_sentiment_df sample_collaborators 1%positive sample_world
     = Raise ValueError sample_world)
  ∨ (PyStr <$> sample_comments ≠ [] ∧
     ∃ df w' line counts,
       @build_sentiment_df sample_collaborators 1%positive sample_world
       = Ok df w'
       ∧ heap w' = heap sample_world
       ∧ files w' = files sample_world
       ∧ factory_seed w' = factory_seed sample_world
       ∧ stdout w' = stdout sample_world ++ [line; PrintCounts counts]).
Proof.
  apply (@build_sentiment_df_effects sample_collaborators 1%positive
           (PyStr <$> sample_comments) sample_world).
  by vm_compute.
Defined.
